(** * rlax losses: [l2_loss], [likelihood] and [log_loss]

    A shallow embedding of [rlax/_src/losses.py].  The three functions are
    elementwise transformations of floating-point arrays built from calls to
    the array library ([jax.numpy]).  The embedding has three layers:

    - IEEE 754 binary floating-point values, as the standard library's
      [spec_float] with its executable arithmetic ([SFsub], [SFmul],
      [SFcompare]); the power and the logarithm, whose values depend on the
      backend (the source notes that [0**0] is NaN on TPUs), are parameters;
    - n-dimensional arrays as a shape and row-major data, with the array
      library's broadcasting;
    - the three functions, written call by call in a monad that logs every
      array-library call and carries the raised error, if any. *)

From Stdlib Require Import ZArith List Bool Arith Lia.
From Stdlib Require Import Floats.SpecFloat.
Import ListNotations.

Set Implicit Arguments.

(** ** Floating-point element types *)

Module IEEE.

(** The floating dtypes of the array library. *)
Inductive float_dtype : Type := Float16 | BFloat16 | Float32 | Float64.

(** Bits of the significand, the implicit one included. *)
Definition prec (f : float_dtype) : Z :=
  match f with
  | Float16 => 11
  | BFloat16 => 8
  | Float32 => 24
  | Float64 => 53
  end%Z.

(** Exponent of the infinities. *)
Definition emax (f : float_dtype) : Z :=
  match f with
  | Float16 => 16
  | BFloat16 => 128
  | Float32 => 128
  | Float64 => 1024
  end%Z.

Definition zero : spec_float := S754_zero false.
Definition one (f : float_dtype) : spec_float := SFone (prec f) (emax f).
(** The Python literal [0.5]. *)
Definition half (f : float_dtype) : spec_float :=
  SFldexp (prec f) (emax f) (one f) (-1).
Definition pos_infinity : spec_float := S754_infinity false.

Definition sub (f : float_dtype) : spec_float -> spec_float -> spec_float :=
  SFsub (prec f) (emax f).
Definition mul (f : float_dtype) : spec_float -> spec_float -> spec_float :=
  SFmul (prec f) (emax f).
Definition neg : spec_float -> spec_float := SFopp.
Definition eqb : spec_float -> spec_float -> bool := SFeqb.
Definition ltb : spec_float -> spec_float -> bool := SFltb.
Definition leb : spec_float -> spec_float -> bool := SFleb.

Definition is_nan (x : spec_float) : bool :=
  match x with S754_nan => true | _ => false end.

(** Neither an infinity nor NaN. *)
Definition is_finite (x : spec_float) : bool :=
  match x with
  | S754_zero _ | S754_finite _ _ _ => true
  | _ => false
  end.

(** [x ** n] for a Python integer exponent [n >= 1]: repeated
    multiplication, as the array library evaluates an integer power, so
    that [x ** 2] is [x * x] (which is also what a correctly rounded
    [pow(x, 2.0)] returns). *)
Fixpoint integer_pow (f : float_dtype) (x : spec_float) (n : nat) : spec_float :=
  match n with
  | 0 => one f
  | 1 => x
  | S m => mul f x (integer_pow f x m)
  end.

(** The sign bit of a value that is not NaN. *)
Definition sign_of (x : spec_float) : option bool :=
  match x with
  | S754_zero s | S754_infinity s | S754_finite s _ _ => Some s
  | S754_nan => None
  end.

(** Identity of two values (the two zeros differ, NaN is itself). *)
Definition same (x y : spec_float) : bool :=
  match x, y with
  | S754_zero a, S754_zero b | S754_infinity a, S754_infinity b => Bool.eqb a b
  | S754_nan, S754_nan => true
  | S754_finite a m e, S754_finite b n k =>
      Bool.eqb a b && Pos.eqb m n && Z.eqb e k
  | _, _ => false
  end.

(** [0 < x < 1] *)
Definition strictly_inside (f : float_dtype) (x : spec_float) : bool :=
  ltb zero x && ltb x (one f).

(** [x] survives complementing twice bit for bit: [1 - (1 - x)] is the
    very datum [x], with the same class, sign, significand and exponent.
    This is identity, not [==]: it holds of NaN, and it fails of [-0.0],
    where [1 - (1 - x)] is [+0.0] although [+0.0 == -0.0]. *)
Definition complement_exact (f : float_dtype) (x : spec_float) : bool :=
  same (sub f (one f) (sub f (one f) x)) x.

(** *** Backends

    A power that is exact for the exponents [0] and [1], where IEEE 754
    fixes [pow(x, +-0) = 1] and [pow(x, 1) = x], and is [approx] elsewhere. *)
Definition pow_exact_cases (f : float_dtype)
    (approx : spec_float -> spec_float -> spec_float)
    (x y : spec_float) : spec_float :=
  if eqb y zero then one f
  else if eqb y (one f) then x
  else approx x y.

(** A natural logarithm with the values IEEE 754 fixes: [-inf] at the
    zeros, [+0] at 1, [+inf] at [+inf], NaN on the negatives and on NaN;
    it is [approx] elsewhere. *)
Definition log_exact_cases (f : float_dtype)
    (approx : spec_float -> spec_float) (x : spec_float) : spec_float :=
  match x with
  | S754_zero _ => S754_infinity true
  | S754_infinity false => S754_infinity false
  | S754_infinity true | S754_nan | S754_finite true _ _ => S754_nan
  | S754_finite false _ _ => if eqb x (one f) then zero else approx x
  end.

(** A backend on which every power is NaN: the worst the override of
    [likelihood] has to cope with. *)
Definition pow_nan (x y : spec_float) : spec_float := S754_nan.

End IEEE.

(** ** N-dimensional arrays *)

Module NDArray.

(** An array is its shape and its elements in row-major order. *)
Record tensor (A : Type) : Type := Tensor { shape : list nat; data : list A }.
Arguments Tensor {A} _ _.
Arguments shape {A} _.
Arguments data {A} _.

(** Number of elements of a shape. *)
Definition size (s : list nat) : nat := fold_right Nat.mul 1 s.

(** Every multi-index of a shape, in row-major order. *)
Fixpoint indices (s : list nat) : list (list nat) :=
  match s with
  | [] => [[]]
  | n :: s' => concat (map (fun k => map (cons k) (indices s')) (seq 0 n))
  end.

(** Row-major offset of a multi-index. *)
Fixpoint ravel (s i : list nat) : nat :=
  match s, i with
  | _ :: s', k :: i' => k * size s' + ravel s' i'
  | _, _ => 0
  end.

(** [i] is a position of an array of shape [s]. *)
Fixpoint in_range (s i : list nat) : bool :=
  match s, i with
  | [], [] => true
  | n :: s', k :: i' => (k <? n) && in_range s' i'
  | _, _ => false
  end.

(** The element at a position; [d] stands for a read outside the data. *)
Definition get {A} (d : A) (a : tensor A) (i : list nat) : A :=
  nth (ravel (shape a) i) (data a) d.

(** The array of shape [s] whose element at [i] is [f i]. *)
Definition of_fun {A} (s : list nat) (f : list nat -> A) : tensor A :=
  Tensor s (map f (indices s)).

(** Length of the data agrees with the shape. *)
Definition well_formed {A} (a : tensor A) : Prop :=
  length (data a) = size (shape a).

(** *** Broadcasting

    Shapes are aligned on their last dimension; two dimensions are
    compatible when they are equal or one of them is 1.  The definitions
    below work on reversed shapes, last dimension first. *)

Definition broadcast_dim (x y : nat) : option nat :=
  if x =? y then Some x
  else if x =? 1 then Some y
  else if y =? 1 then Some x
  else None.

Fixpoint broadcast_rev (a b : list nat) : option (list nat) :=
  match a, b with
  | [], _ => Some b
  | _, [] => Some a
  | x :: a', y :: b' =>
      match broadcast_dim x y, broadcast_rev a' b' with
      | Some d, Some r => Some (d :: r)
      | _, _ => None
      end
  end.

Definition broadcast_shapes (a b : list nat) : option (list nat) :=
  option_map (@rev nat) (broadcast_rev (rev a) (rev b)).

(** The position of an operand of (reversed) shape [sa] that a (reversed)
    position [i] of the broadcast result reads: the leading dimensions the
    operand lacks are dropped, and a dimension of size 1 is read at 0. *)
Fixpoint broadcast_index_rev (sa i : list nat) : list nat :=
  match sa, i with
  | d :: sa', k :: i' => (if d =? 1 then 0 else k) :: broadcast_index_rev sa' i'
  | _, _ => []
  end.

Definition broadcast_index (sa i : list nat) : list nat :=
  rev (broadcast_index_rev (rev sa) (rev i)).

End NDArray.

(** ** The array library, as the losses call it *)

Module Jnp.
Import NDArray.

(** The calls the three functions make. *)
Inductive libcall : Type :=
  | Zeros_like | Type_assert
  | Subtract | Integer_pow | Multiply | Power
  | Equal | Logical_and | Logical_or | Where
  | Log | Negative.

(** Array creation and the dtype check compute nothing on the elements. *)
Definition is_numeric (c : libcall) : bool :=
  match c with
  | Zeros_like | Type_assert => false
  | _ => true
  end.

Inductive error : Type :=
  | TypeAssertion     (* an input's element type is not floating-point *)
  | BroadcastError.   (* the array library's: incompatible shapes *)

Inductive result (A : Type) : Type :=
  | Ok (a : A)
  | Raise (e : error).
Arguments Ok {A} _.
Arguments Raise {A} _.

(** A computation yields the calls it made, in order, and its result. *)
Definition M (A : Type) : Type := (list libcall * result A)%type.

Definition ret {A} (a : A) : M A := ([], Ok a).

Definition bind {A B} (m : M A) (k : A -> M B) : M B :=
  match m with
  | (l, Ok a) => let (l', r) := k a in (l ++ l', r)
  | (l, Raise e) => (l, Raise e)
  end.

(** One library call and its result. *)
Definition call {A} (c : libcall) (r : result A) : M A := ([c], r).

Definition calls {A} (m : M A) : list libcall := fst m.
Definition outcome {A} (m : M A) : result A := snd m.

Notation "x <- m ;; k" := (bind m (fun x => k))
  (at level 61, m at next level, right associativity).
Notation "' pat <- m ;; k" := (bind m (fun x => match x with pat => k end))
  (at level 61, pat pattern, m at next level, right associativity).

Definition farray : Type := tensor spec_float.
Definition barray : Type := tensor bool.

(** An array-like value carries its element type. *)
Inductive ndarray : Type :=
  | FloatArray (a : farray)
  | IntArray (a : tensor Z)
  | BoolArray (a : barray).

Definition floating (x : ndarray) : option farray :=
  match x with
  | FloatArray a => Some a
  | _ => None
  end.

Definition is_floating (x : ndarray) : bool :=
  match x with
  | FloatArray _ => true
  | _ => false
  end.

Definition fget : farray -> list nat -> spec_float := get S754_nan.
Definition bget : barray -> list nat -> bool := get false.

(** An elementwise operation of one array. *)
Definition map1 {A B} (d : A) (f : A -> B) (a : tensor A) : tensor B :=
  of_fun (shape a) (fun i => f (get d a i)).

(** An elementwise operation of two arrays, with broadcasting. *)
Definition map2 {A B C} (da : A) (db : B) (f : A -> B -> C)
    (a : tensor A) (b : tensor B) : result (tensor C) :=
  match broadcast_shapes (shape a) (shape b) with
  | Some s =>
      Ok (of_fun s (fun i =>
            f (get da a (broadcast_index (shape a) i))
              (get db b (broadcast_index (shape b) i))))
  | None => Raise BroadcastError
  end.

(** Zeros of the shape and element type of [x]. *)
Definition zeros_of (x : ndarray) : ndarray :=
  match x with
  | FloatArray a => FloatArray (of_fun (shape a) (fun _ => IEEE.zero))
  | IntArray a => IntArray (of_fun (shape a) (fun _ => 0%Z))
  | BoolArray a => BoolArray (of_fun (shape a) (fun _ => false))
  end.

(** [jnp.zeros_like] *)
Definition zeros_like (x : ndarray) : M ndarray :=
  call Zeros_like (Ok (zeros_of x)).

(** A computation is guarded by a dtype check on inputs that are all
    floating iff [floating_inputs]: it raises [TypeAssertion] exactly when
    they are not, and then it has made no numeric call and returns no
    array. *)
Definition type_checked {A} (m : M A) (floating_inputs : bool) : Prop :=
  (outcome m = Raise TypeAssertion <-> floating_inputs = false)
  /\ (floating_inputs = false ->
      existsb is_numeric (calls m) = false
      /\ forall r, outcome m <> Ok r).

(** Modelled from the spec: [rlax._src.base.type_assert] is not part of the
    sources at hand.  The spec gives it as "a type/dtype-assertion primitive
    that fails when an array's element type is not floating-point"; here it
    is called on the two inputs and, when both are floating, hands back their
    elements. *)
Definition type_assert (x y : ndarray) : M (farray * farray) :=
  call Type_assert
    match floating x, floating y with
    | Some a, Some b => Ok (a, b)
    | _, _ => Raise TypeAssertion
    end.

(** [1. - a], the complement of an array of probabilities. *)
Definition complement (fmt : IEEE.float_dtype) (a : farray) : farray :=
  map1 S754_nan (IEEE.sub fmt (IEEE.one fmt)) a.

Section Backend.

(** The floating dtype of the arrays, and the backend's elementwise power
    and natural logarithm.  The floating arrays of one run share the dtype
    [fmt]: promotion between floating dtypes is left out.  A Python scalar
    operand ([0.5], [1.], [1], [0]) takes the dtype of the array it meets. *)
Variable fmt : IEEE.float_dtype.
Variable pow : spec_float -> spec_float -> spec_float.
Variable log : spec_float -> spec_float.

(** [a - b] *)
Definition subtract (a b : farray) : M farray :=
  call Subtract (map2 S754_nan S754_nan (IEEE.sub fmt) a b).

(** [c - a] for a Python scalar [c] *)
Definition rsub_scalar (c : spec_float) (a : farray) : M farray :=
  call Subtract (Ok (map1 S754_nan (IEEE.sub fmt c) a)).

(** [a * b] *)
Definition multiply (a b : farray) : M farray :=
  call Multiply (map2 S754_nan S754_nan (IEEE.mul fmt) a b).

(** [c * a] for a Python scalar [c] *)
Definition scalar_multiply (c : spec_float) (a : farray) : M farray :=
  call Multiply (Ok (map1 S754_nan (IEEE.mul fmt c) a)).

(** [a ** n] for a Python integer [n] *)
Definition integer_pow (a : farray) (n : nat) : M farray :=
  call Integer_pow (Ok (map1 S754_nan (fun x => IEEE.integer_pow fmt x n) a)).

(** [a ** b] for arrays *)
Definition power (a b : farray) : M farray :=
  call Power (map2 S754_nan S754_nan pow a b).

(** [a == c] for a Python scalar [c] *)
Definition equal_scalar (a : farray) (c : spec_float) : M barray :=
  call Equal (Ok (map1 S754_nan (fun x => IEEE.eqb x c) a)).

Definition logical_and (a b : barray) : M barray :=
  call Logical_and (map2 false false andb a b).

Definition logical_or (a b : barray) : M barray :=
  call Logical_or (map2 false false orb a b).

(** [jnp.where(mask, c, a)] for a Python scalar [c] *)
Definition where_ (mask : barray) (c : spec_float) (a : farray) : M farray :=
  call Where (map2 false S754_nan (fun m x => if m then c else x) mask a).

Definition jnp_log (a : farray) : M farray :=
  call Log (Ok (map1 S754_nan log a)).

Definition negative (a : farray) : M farray :=
  call Negative (Ok (map1 S754_nan IEEE.neg a)).

End Backend.

End Jnp.

(** ** The losses *)

Module Losses.
Import NDArray Jnp.

Section Losses.

Variable fmt : IEEE.float_dtype.
Variable pow : spec_float -> spec_float -> spec_float.
Variable log : spec_float -> spec_float.

(** [l2_loss(predictions, targets=None)] *)
Definition l2_loss (predictions : ndarray) (targets : option ndarray) : M farray :=
  targets <- match targets with
             | None => zeros_like predictions
             | Some t => ret t
             end ;;
  '(p, t) <- type_assert predictions targets ;;
  d <- subtract fmt p t ;;
  sq <- integer_pow fmt d 2 ;;
  scalar_multiply fmt (IEEE.half fmt) sq.

(** [likelihood(predictions, targets)] *)
Definition likelihood (predictions targets : ndarray) : M farray :=
  '(p, t) <- type_assert predictions targets ;;
  pt <- power pow p t ;;
  omp <- rsub_scalar fmt (IEEE.one fmt) p ;;
  omt <- rsub_scalar fmt (IEEE.one fmt) t ;;
  pw <- power pow omp omt ;;
  likelihood_vals <- multiply fmt pt pw ;;
  t1 <- equal_scalar t (IEEE.one fmt) ;;
  p1 <- equal_scalar p (IEEE.one fmt) ;;
  both1 <- logical_and t1 p1 ;;
  t0 <- equal_scalar t IEEE.zero ;;
  p0 <- equal_scalar p IEEE.zero ;;
  both0 <- logical_and t0 p0 ;;
  filter_indices <- logical_or both1 both0 ;;
  where_ filter_indices (IEEE.one fmt) likelihood_vals.

(** [log_loss(predictions, targets)] *)
Definition log_loss (predictions targets : ndarray) : M farray :=
  _ <- type_assert predictions targets ;;
  l <- likelihood predictions targets ;;
  lg <- jnp_log log l ;;
  negative lg.

End Losses.

End Losses.

(** ** The losses, position by position *)

Module Elementwise.
Import IEEE.

Section Kernels.

Variable fmt : float_dtype.
Variable pow : spec_float -> spec_float -> spec_float.
Variable log : spec_float -> spec_float.

(** [0.5 * (p - t)**2] *)
Definition l2 (p t : spec_float) : spec_float :=
  mul fmt (half fmt) (integer_pow fmt (sub fmt p t) 2).

(** The direct formula [p**t * (1 - p)**(1 - t)]. *)
Definition direct_formula (p t : spec_float) : spec_float :=
  mul fmt (pow p t) (pow (sub fmt (one fmt) p) (sub fmt (one fmt) t)).

(** [(t == 1 and p == 1) or (t == 0 and p == 0)] *)
Definition override (p t : spec_float) : bool :=
  (eqb t (one fmt) && eqb p (one fmt)) || (eqb t zero && eqb p zero).

(** The selection between the constant 1 and the direct formula. *)
Definition likelihood (p t : spec_float) : spec_float :=
  if override p t then one fmt else direct_formula p t.

(** [-log(likelihood(p, t))] *)
Definition log_loss (p t : spec_float) : spec_float :=
  neg (log (likelihood p t)).

End Kernels.

End Elementwise.

(** ** Sample inputs *)

Module Samples.
Import IEEE NDArray Jnp.

(** [[1.0, 0.0, 0.5]] *)
Definition predictions (f : float_dtype) : farray :=
  Tensor [3] [one f; zero; half f].

(** [[1.0, 0.0, 1.0]] *)
Definition targets (f : float_dtype) : farray :=
  Tensor [3] [one f; zero; one f].

(** [[0.5, 0.5]], of shape [(2, 1)] *)
Definition column (f : float_dtype) : farray :=
  Tensor [2; 1] [half f; half f].

(** [predictions = [0.0]] against [targets = [1.0]]: a certain miss. *)
Definition miss_predictions : farray := Tensor [1] [zero].
Definition miss_targets (f : float_dtype) : farray := Tensor [1] [one f].

(** [2**-30] in binary32: so small that [1 - 2**-30] rounds to [1]. *)
Definition tiny : spec_float := S754_finite false 8388608 (-53).

End Samples.

(** ** Views of the inputs used to state further properties *)

Module Views.
Import IEEE NDArray Jnp.

(** The shape of an array-like value, whatever its element type. *)
Definition shape_of (x : ndarray) : list nat :=
  match x with
  | FloatArray a => shape a
  | IntArray a => shape a
  | BoolArray a => shape a
  end.

(** The shapes of two array-like values broadcast. *)
Definition compatible (x y : ndarray) : bool :=
  match broadcast_shapes (shape_of x) (shape_of y) with
  | Some _ => true
  | None => false
  end.

(** A run returns an array. *)
Definition returns {A} (m : M A) : Prop := exists r, outcome m = Ok r.

(** The three ways a run can end, told by whether its inputs are all
    floating and whether their shapes broadcast. *)
Definition classified {A} (m : M A) (floating_inputs shapes_ok : bool) : Prop :=
  (returns m <-> floating_inputs && shapes_ok = true)
  /\ (outcome m = Raise BroadcastError
      <-> floating_inputs && negb shapes_ok = true)
  /\ (outcome m = Raise TypeAssertion <-> floating_inputs = false).

(** [-a] *)
Definition negated (a : farray) : farray := map1 S754_nan neg a.

(** A hard label or a hard prediction: [0.0] or [1.0]. *)
Definition hard (f : float_dtype) (x : spec_float) : bool :=
  same x zero || same x (one f).

(** [0 < x <= 1] *)
Definition in_unit_interval (f : float_dtype) (x : spec_float) : bool :=
  ltb zero x && leb x (one f).

(** An empty array of shape [(0, 3)], and a row of shape [(3,)] holding an
    infinity and a NaN. *)
Definition empty_rows : farray := Tensor [0; 3] [].
Definition wild_row (f : float_dtype) : farray :=
  Tensor [3] [one f; pos_infinity; S754_nan].

(** [[1.0, 0.0, 0.0, 1.0]] against [[1.0, 0.0, 1.0, 0.0]]: hard predictions
    that agree with hard labels twice and miss twice. *)
Definition hard_predictions (f : float_dtype) : farray :=
  Tensor [4] [one f; zero; zero; one f].
Definition hard_targets (f : float_dtype) : farray :=
  Tensor [4] [one f; zero; one f; zero].

End Views.

(** * Properties *)

(** ** Floating-point arithmetic *)

Module IEEEFacts.
Import IEEE.

Section Format.

Variables prec emax : Z.

(** Rounding acts on the magnitude only: the sign is carried through. *)
Lemma binary_round_aux_negb (s : bool) (m e : Z) (l : location) :
  binary_round_aux prec emax (negb s) m e l
  = SFopp (binary_round_aux prec emax s m e l).
Proof.
  unfold binary_round_aux.
  destruct (shr_fexp prec emax m e l) as [mrs' e'].
  destruct (shr_fexp prec emax _ e' loc_Exact) as [mrs'' e''].
  destruct (shr_m mrs''); simpl; try reflexivity.
  destruct (Z.leb e'' (emax - prec)); reflexivity.
Qed.

Lemma binary_round_negb (s : bool) (m : positive) (e : Z) :
  binary_round prec emax (negb s) m e = SFopp (binary_round prec emax s m e).
Proof.
  unfold binary_round.
  destruct (shl_align m e _) as [mz ez].
  apply binary_round_aux_negb.
Qed.

Lemma binary_normalize_opp (m e : Z) :
  binary_normalize prec emax (- m) e false
  = match m with
    | Z0 => S754_zero false
    | _ => SFopp (binary_normalize prec emax m e false)
    end.
Proof.
  destruct m; simpl; try reflexivity.
  - apply (binary_round_negb false).
  - now rewrite <- (binary_round_negb true).
Qed.

(** The sign of a rounded value is the sign it was given. *)
Lemma binary_round_aux_sign (s : bool) (m e : Z) (l : location) :
  match sign_of (binary_round_aux prec emax s m e l) with
  | Some s' => s' = s
  | None => True
  end.
Proof.
  unfold binary_round_aux.
  destruct (shr_fexp prec emax m e l) as [mrs' e'].
  destruct (shr_fexp prec emax _ e' loc_Exact) as [mrs'' e''].
  destruct (shr_m mrs''); simpl; auto.
  destruct (Z.leb e'' (emax - prec)); reflexivity.
Qed.

(** Swapping the operands of a subtraction negates the result, two equal
    zeros apart (both differences are then [+0]). *)
Lemma SFsub_swap (x y : spec_float) :
  SFsub prec emax y x = SFopp (SFsub prec emax x y)
  \/ (SFsub prec emax x y = S754_zero false
      /\ SFsub prec emax y x = S754_zero false).
Proof.
  destruct x as [sx|sx| |sx mx ex], y as [sy|sy| |sy my ey]; simpl;
    try (left; reflexivity);
    try (destruct sx, sy; simpl; auto; fail).
  rewrite (Z.min_comm ey ex).
  set (a := cond_Zopp sx _). set (b := cond_Zopp sy _).
  replace (b - a)%Z with (- (a - b))%Z by ring.
  rewrite binary_normalize_opp.
  destruct (a - b)%Z; auto.
Qed.

Lemma SFmul_opp_opp (x : spec_float) :
  SFmul prec emax (SFopp x) (SFopp x) = SFmul prec emax x x.
Proof.
  destruct x as [s|s| |s m e]; simpl; try reflexivity;
    destruct s; reflexivity.
Qed.

(** The square of a difference does not depend on the order of the
    operands. *)
Lemma SFmul_SFsub_swap (x y : spec_float) :
  SFmul prec emax (SFsub prec emax x y) (SFsub prec emax x y)
  = SFmul prec emax (SFsub prec emax y x) (SFsub prec emax y x).
Proof.
  destruct (SFsub_swap x y) as [H | [H1 H2]].
  - rewrite H. symmetry. apply SFmul_opp_opp.
  - now rewrite H1, H2.
Qed.

Lemma SFmul_comm (x y : spec_float) :
  SFmul prec emax x y = SFmul prec emax y x.
Proof.
  destruct x as [sx|sx| |sx mx ex], y as [sy|sy| |sy my ey]; simpl;
    try reflexivity; try (now rewrite xorb_comm).
  now rewrite xorb_comm, Pos.mul_comm, Z.add_comm.
Qed.

Lemma SFsub_zero_r (x : spec_float) :
  SFsub prec emax x (S754_zero false) = x.
Proof. destruct x as [[]|[]| |s m e]; reflexivity. Qed.

Lemma SFsub_diag (x : spec_float) :
  is_finite x = true -> SFsub prec emax x x = S754_zero false.
Proof.
  destruct x as [[]|s| |s m e]; simpl; try reflexivity; try discriminate.
  intros _. now rewrite Z.sub_diag.
Qed.

(** A square is NaN or carries the sign bit [false]. *)
Lemma SFmul_diag_sign (x : spec_float) :
  match sign_of (SFmul prec emax x x) with
  | Some s => s = false
  | None => True
  end.
Proof.
  destruct x as [s|s| |s m e]; simpl; auto using xorb_nilpotent.
  generalize (binary_round_aux_sign (xorb s s) (Zpos (m * m)) (e + e) loc_Exact).
  now rewrite xorb_nilpotent.
Qed.

(** Scaling by a positive finite constant keeps a sign bit [false]. *)
Lemma SFmul_pos_sign (m : positive) (e : Z) (x : spec_float) :
  sign_of x = Some false ->
  match sign_of (SFmul prec emax (S754_finite false m e) x) with
  | Some s => s = false
  | None => True
  end.
Proof.
  destruct x as [s|s| |s mx ex]; simpl; intros [= ->]; auto.
  apply (binary_round_aux_sign false).
Qed.

(** Rounding a non-negative significand never yields NaN. *)
Lemma shr_1_nonneg (mrs : shr_record) :
  (0 <= shr_m mrs)%Z -> (0 <= shr_m (shr_1 mrs))%Z.
Proof.
  destruct mrs as [m r s]. simpl.
  destruct m as [|[q|q|]|q]; simpl; lia.
Qed.

Lemma iter_pos_shr_1_nonneg (p : positive) (mrs : shr_record) :
  (0 <= shr_m mrs)%Z -> (0 <= shr_m (iter_pos shr_1 p mrs))%Z.
Proof.
  revert mrs; induction p as [p IH|p IH|]; intros mrs H; simpl;
    auto using shr_1_nonneg.
Qed.

Lemma shr_fexp_nonneg (m e : Z) (l : location) :
  (0 <= m)%Z -> (0 <= shr_m (fst (shr_fexp prec emax m e l)))%Z.
Proof.
  intros H. unfold shr_fexp, shr.
  assert (H0 : (0 <= shr_m (shr_record_of_loc m l))%Z)
    by (destruct l as [|[]]; exact H).
  destruct (_ - e)%Z; simpl; auto using iter_pos_shr_1_nonneg.
Qed.

Lemma round_nearest_even_nonneg (m : Z) (l : location) :
  (0 <= m)%Z -> (0 <= round_nearest_even m l)%Z.
Proof.
  intros H. destruct l as [|[]]; simpl; try lia.
  destruct (Z.even m); lia.
Qed.

Lemma binary_round_aux_not_nan (s : bool) (m e : Z) (l : location) :
  (0 <= m)%Z -> binary_round_aux prec emax s m e l <> S754_nan.
Proof.
  intros H. unfold binary_round_aux.
  generalize (shr_fexp_nonneg e l H).
  destruct (shr_fexp prec emax m e l) as [mrs' e']. simpl. intros H'.
  generalize (shr_fexp_nonneg e' loc_Exact
                (round_nearest_even_nonneg (loc_of_shr_record mrs') H')).
  destruct (shr_fexp prec emax _ e' loc_Exact) as [mrs'' e'']. simpl.
  destruct (shr_m mrs''); try lia; try discriminate.
  intros _. destruct (Z.leb e'' (emax - prec)); discriminate.
Qed.

Lemma binary_normalize_not_nan (m e : Z) (sz : bool) :
  binary_normalize prec emax m e sz <> S754_nan.
Proof.
  destruct m as [|q|q]; simpl; try discriminate;
    unfold binary_round; destruct (shl_align q e _) as [mz ez];
    apply binary_round_aux_not_nan; lia.
Qed.

(** Where squares, scalings by a finite constant and differences are
    NaN. *)
Lemma SFmul_diag_nan_iff (x : spec_float) :
  SFmul prec emax x x = S754_nan <-> x = S754_nan.
Proof.
  split; [|now intros ->].
  destruct x as [s|s| |s m e]; simpl; auto; try discriminate.
  intros H. now apply binary_round_aux_not_nan in H; [|lia].
Qed.

Lemma SFmul_finite_nan_iff (s : bool) (m : positive) (e : Z) (x : spec_float) :
  SFmul prec emax (S754_finite s m e) x = S754_nan <-> x = S754_nan.
Proof.
  split; [|now intros ->].
  destruct x as [sx|sx| |sx mx ex]; simpl; auto; try discriminate.
  intros H. now apply binary_round_aux_not_nan in H; [|lia].
Qed.

Lemma SFsub_nan_iff (x y : spec_float) :
  SFsub prec emax x y = S754_nan
  <-> x = S754_nan \/ y = S754_nan
      \/ exists s, x = S754_infinity s /\ y = S754_infinity s.
Proof.
  split.
  - destruct x as [sx|sx| |sx mx ex], y as [sy|sy| |sy my ey]; simpl; auto;
      try discriminate;
      try (destruct sx, sy; try discriminate; eauto; fail).
    intros H. now apply binary_normalize_not_nan in H.
  - intros [-> | [-> | (s & -> & ->)]]; simpl; auto.
    + now destruct x.
    + now destruct s.
Qed.

End Format.

(** *** Comparisons *)

(** What is not NaN and carries the sign bit [false] is at least [+0]. *)
Lemma leb_zero_of_sign (x : spec_float) :
  sign_of x = Some false -> leb zero x = true.
Proof. destruct x as [s|s| |s m e]; simpl; intros [= ->]; reflexivity. Qed.

Lemma leb_zero_nan : leb zero S754_nan = false.
Proof. reflexivity. Qed.

(** [==] against a finite value holds of that very value only. *)
Lemma eqb_finite_eq (x : spec_float) (s : bool) (m : positive) (e : Z) :
  eqb x (S754_finite s m e) = true -> x = S754_finite s m e.
Proof.
  unfold eqb, SFeqb.
  destruct x as [sx|sx| |sx mx ex]; simpl; try discriminate;
    try (destruct sx; discriminate); try (destruct s; discriminate).
  destruct sx, s; try discriminate;
    destruct (Z.compare ex e) eqn:He; try discriminate;
    apply Z.compare_eq in He; subst;
    destruct (Pos.compare_cont Eq mx m) eqn:Hm; try discriminate;
    apply Pos.compare_eq in Hm; now subst.
Qed.

Lemma eqb_finite_refl (s : bool) (m : positive) (e : Z) :
  eqb (S754_finite s m e) (S754_finite s m e) = true.
Proof.
  unfold eqb, SFeqb. simpl.
  destruct s; rewrite Z.compare_refl; change (Pos.compare_cont Eq m m) with (Pos.compare m m);
    now rewrite Pos.compare_refl.
Qed.

(** [== 0] holds of the two zeros only. *)
Lemma eqb_zero_inv (x : spec_float) :
  eqb x zero = true -> exists s, x = S754_zero s.
Proof.
  destruct x as [sx|sx| |sx mx ex]; simpl; try discriminate; eauto;
    destruct sx; discriminate.
Qed.

(** Strictly between 0 and 1 is neither [== 0] nor [== 1]. *)
Lemma ltb_eqb_false (x y : spec_float) : ltb x y = true -> eqb x y = false.
Proof.
  unfold ltb, eqb, SFltb, SFeqb.
  destruct (SFcompare x y) as [[]|]; auto; discriminate.
Qed.

Lemma gtb_zero_eqb_false (x : spec_float) :
  ltb zero x = true -> eqb x zero = false.
Proof. destruct x as [[]|[]| |[] m e]; simpl; auto; discriminate. Qed.

(** *** The constants, dtype by dtype *)

Lemma one_finite (f : float_dtype) :
  exists m e, one f = S754_finite false m e.
Proof. destruct f; vm_compute; eauto. Qed.

Lemma half_finite (f : float_dtype) :
  exists m e, half f = S754_finite false m e.
Proof. destruct f; vm_compute; eauto. Qed.

Lemma one_neq_zero (f : float_dtype) : eqb (one f) zero = false.
Proof. destruct f; reflexivity. Qed.

Lemma zero_neq_one (f : float_dtype) (s : bool) : eqb (S754_zero s) (one f) = false.
Proof. destruct f; reflexivity. Qed.

Lemma sub_one_one (f : float_dtype) : sub f (one f) (one f) = zero.
Proof. destruct f; reflexivity. Qed.

Lemma sub_one_zero (f : float_dtype) (s : bool) :
  sub f (one f) (S754_zero s) = one f.
Proof. destruct f; reflexivity. Qed.

Lemma sub_one_half (f : float_dtype) : sub f (one f) (half f) = half f.
Proof. destruct f; vm_compute; reflexivity. Qed.

Lemma mul_half_one (f : float_dtype) : mul f (half f) (one f) = half f.
Proof. destruct f; vm_compute; reflexivity. Qed.

Lemma half_neq_one (f : float_dtype) : eqb (half f) (one f) = false.
Proof. destruct f; reflexivity. Qed.

Lemma mul_half_zero (f : float_dtype) : mul f (half f) zero = zero.
Proof. destruct f; reflexivity. Qed.

Lemma eqb_one_eq (f : float_dtype) (x : spec_float) :
  eqb x (one f) = true -> x = one f.
Proof.
  destruct (one_finite f) as (m & e & ->). apply eqb_finite_eq.
Qed.

Lemma eqb_one_refl (f : float_dtype) : eqb (one f) (one f) = true.
Proof.
  destruct (one_finite f) as (m & e & ->). apply eqb_finite_refl.
Qed.

End IEEEFacts.

(** ** Arrays: positions, row-major layout and broadcasting *)

Module NDFacts.
Import NDArray.

Lemma in_range_length (s i : list nat) :
  in_range s i = true -> length s = length i.
Proof.
  revert i; induction s as [|n s IH]; intros [|k i]; simpl; try discriminate; auto.
  intros H. apply andb_prop in H as [_ H]. f_equal; auto.
Qed.

Lemma in_range_app (s1 i1 s2 i2 : list nat) :
  length s1 = length i1 ->
  in_range (s1 ++ s2) (i1 ++ i2) = in_range s1 i1 && in_range s2 i2.
Proof.
  revert i1; induction s1 as [|n s1 IH]; intros [|k i1]; simpl; try discriminate; auto.
  intros [= H]. now rewrite IH, andb_assoc.
Qed.

Lemma in_range_rev (s i : list nat) :
  in_range s i = true -> in_range (rev s) (rev i) = true.
Proof.
  revert i; induction s as [|n s IH]; intros [|k i]; simpl; try discriminate; auto.
  intros H. apply andb_prop in H as [Hk H].
  rewrite in_range_app.
  - rewrite (IH _ H). simpl. now rewrite Hk.
  - rewrite !length_rev. now apply in_range_length.
Qed.

Lemma in_range_rev_inv (s i : list nat) :
  in_range (rev s) (rev i) = true -> in_range s i = true.
Proof.
  intros H. apply in_range_rev in H. now rewrite !rev_involutive in H.
Qed.

(** *** Row-major layout *)

Lemma length_indices (s : list nat) : length (indices s) = size s.
Proof.
  induction s as [|n s IH]; simpl; auto.
  rewrite length_concat, map_map.
  rewrite (map_ext _ (fun _ => size s)) by (intros; now rewrite length_map).
  generalize 0. induction n as [|n IHn]; intros a; simpl; auto.
Qed.

Lemma ravel_lt (s i : list nat) : in_range s i = true -> ravel s i < size s.
Proof.
  revert i; induction s as [|n s IH]; intros [|k i]; simpl; try discriminate; auto.
  intros H. apply andb_prop in H as [Hk H].
  apply Nat.ltb_lt in Hk. specialize (IH _ H).
  change (fold_right Nat.mul 1 s) with (size s). nia.
Qed.

(** In a concatenation of blocks of one length [m], the element at
    [k * m + r] is the [r]-th of the [k]-th block. *)
Lemma nth_error_concat_uniform {A} (ls : list (list A)) (m k r : nat) :
  (forall l, In l ls -> length l = m) ->
  r < m ->
  nth_error (concat ls) (k * m + r)
  = match nth_error ls k with
    | Some l => nth_error l r
    | None => None
    end.
Proof.
  revert k; induction ls as [|l ls IH]; intros k Hlen Hr.
  - simpl. destruct (k * m + r); destruct k; reflexivity.
  - simpl. destruct k as [|k]; simpl.
    + rewrite nth_error_app1; auto. rewrite (Hlen l); simpl; auto.
    + rewrite nth_error_app2 by (rewrite (Hlen l); simpl; auto; lia).
      rewrite (Hlen l) by (simpl; auto).
      replace (m + k * m + r - m) with (k * m + r) by lia.
      apply IH; auto. intros l' Hl'. apply Hlen. simpl; auto.
Qed.

Lemma nth_error_indices (s i : list nat) :
  in_range s i = true -> nth_error (indices s) (ravel s i) = Some i.
Proof.
  revert i; induction s as [|n s IH]; intros [|k i]; simpl; try discriminate; auto.
  intros H. apply andb_prop in H as [Hk H].
  change (fold_right Nat.mul 1 s) with (size s).
  rewrite (@nth_error_concat_uniform _ _ (size s)).
  - rewrite nth_error_map, nth_error_seq, Hk. simpl.
    now apply map_nth_error, IH.
  - intros l Hl. apply in_map_iff in Hl as (j & <- & _).
    now rewrite length_map, length_indices.
  - now apply ravel_lt.
Qed.

(** Reading back what [of_fun] tabulated. *)
Lemma get_of_fun {A} (d : A) (s : list nat) (f : list nat -> A) (i : list nat) :
  in_range s i = true -> get d (of_fun s f) i = f i.
Proof.
  intros H. unfold get, of_fun; simpl.
  apply nth_error_nth, map_nth_error, nth_error_indices, H.
Qed.

Lemma In_indices (s i : list nat) : In i (indices s) -> in_range s i = true.
Proof.
  revert i; induction s as [|n s IH]; intros i; simpl.
  - intros [<- | []]. reflexivity.
  - rewrite in_concat. intros (l & Hl & Hi).
    apply in_map_iff in Hl as (k & <- & Hk).
    apply in_map_iff in Hi as (j & <- & Hj).
    apply in_seq in Hk. simpl.
    rewrite (IH _ Hj), andb_true_r. apply Nat.ltb_lt. lia.
Qed.

(** Two tabulations over one shape agree when the functions agree on the
    positions of the shape. *)
Lemma of_fun_ext {A} (s : list nat) (f g : list nat -> A) :
  (forall i, in_range s i = true -> f i = g i) -> of_fun s f = of_fun s g.
Proof.
  intros H. unfold of_fun. f_equal.
  apply map_ext_in. intros i Hi. apply H, In_indices, Hi.
Qed.

Lemma well_formed_of_fun {A} (s : list nat) (f : list nat -> A) :
  well_formed (of_fun s f).
Proof. unfold well_formed, of_fun; simpl. now rewrite length_map, length_indices. Qed.

(** *** Broadcasting *)

Lemma broadcast_dim_diag (x : nat) : broadcast_dim x x = Some x.
Proof. unfold broadcast_dim. now rewrite Nat.eqb_refl. Qed.

Lemma broadcast_rev_diag (a : list nat) : broadcast_rev a a = Some a.
Proof.
  induction a as [|x a IH]; simpl; auto.
  now rewrite broadcast_dim_diag, IH.
Qed.

Lemma broadcast_index_rev_id (a i : list nat) :
  in_range a i = true -> broadcast_index_rev a i = i.
Proof.
  revert i; induction a as [|x a IH]; intros [|k i]; simpl; try discriminate; auto.
  intros H. apply andb_prop in H as [Hk H].
  rewrite (IH _ H). f_equal.
  destruct (Nat.eqb_spec x 1); auto.
  apply Nat.ltb_lt in Hk. lia.
Qed.

Lemma broadcast_dim_lt_l (x y d k : nat) :
  broadcast_dim x y = Some d -> k < d -> (if x =? 1 then 0 else k) < x.
Proof.
  unfold broadcast_dim.
  destruct (Nat.eqb_spec x y), (Nat.eqb_spec x 1), (Nat.eqb_spec y 1);
    intros [= <-]; lia.
Qed.

Lemma broadcast_dim_lt_r (x y d k : nat) :
  broadcast_dim x y = Some d -> k < d -> (if y =? 1 then 0 else k) < y.
Proof.
  unfold broadcast_dim.
  destruct (Nat.eqb_spec x y), (Nat.eqb_spec x 1), (Nat.eqb_spec y 1);
    intros [= <-]; lia.
Qed.

Lemma broadcast_index_rev_in_range_l (a b s i : list nat) :
  broadcast_rev a b = Some s -> in_range s i = true ->
  in_range a (broadcast_index_rev a i) = true.
Proof.
  revert b s i; induction a as [|x a IH]; intros b s i Hs Hi.
  - reflexivity.
  - destruct b as [|y b]; simpl in Hs.
    + injection Hs as <-. now rewrite broadcast_index_rev_id.
    + destruct (broadcast_dim x y) as [d|] eqn:Hd; try discriminate.
      destruct (broadcast_rev a b) as [r|] eqn:Hr; try discriminate.
      injection Hs as <-. destruct i as [|k i]; try discriminate.
      simpl in Hi. apply andb_prop in Hi as [Hk Hi]. simpl.
      rewrite (IH _ _ _ Hr Hi), andb_true_r.
      apply Nat.ltb_lt in Hk. apply Nat.ltb_lt.
      eapply broadcast_dim_lt_l; eauto.
Qed.

Lemma broadcast_index_rev_in_range_r (a b s i : list nat) :
  broadcast_rev a b = Some s -> in_range s i = true ->
  in_range b (broadcast_index_rev b i) = true.
Proof.
  revert a s i; induction b as [|y b IH]; intros a s i Hs Hi.
  - reflexivity.
  - destruct a as [|x a]; simpl in Hs.
    + injection Hs as <-. now rewrite broadcast_index_rev_id.
    + destruct (broadcast_dim x y) as [d|] eqn:Hd; try discriminate.
      destruct (broadcast_rev a b) as [r|] eqn:Hr; try discriminate.
      injection Hs as <-. destruct i as [|k i]; try discriminate.
      simpl in Hi. apply andb_prop in Hi as [Hk Hi]. simpl.
      rewrite (IH _ _ _ Hr Hi), andb_true_r.
      apply Nat.ltb_lt in Hk. apply Nat.ltb_lt.
      eapply broadcast_dim_lt_r; eauto.
Qed.

Lemma broadcast_dim_comm (x y : nat) : broadcast_dim x y = broadcast_dim y x.
Proof.
  unfold broadcast_dim.
  destruct (Nat.eqb_spec x y), (Nat.eqb_spec y x), (Nat.eqb_spec x 1),
    (Nat.eqb_spec y 1); subst; auto; congruence.
Qed.

Lemma broadcast_rev_comm (a b : list nat) : broadcast_rev a b = broadcast_rev b a.
Proof.
  revert b; induction a as [|x a IH]; intros [|y b]; simpl; auto.
  now rewrite broadcast_dim_comm, IH.
Qed.

(** Broadcasting does not depend on the order of the operands. *)
Lemma broadcast_shapes_comm (a b : list nat) :
  broadcast_shapes a b = broadcast_shapes b a.
Proof. unfold broadcast_shapes. now rewrite broadcast_rev_comm. Qed.

Lemma broadcast_shapes_diag (s : list nat) : broadcast_shapes s s = Some s.
Proof.
  unfold broadcast_shapes. rewrite broadcast_rev_diag. simpl.
  now rewrite rev_involutive.
Qed.

Lemma broadcast_index_id (s i : list nat) :
  in_range s i = true -> broadcast_index s i = i.
Proof.
  intros H. unfold broadcast_index.
  rewrite broadcast_index_rev_id by now apply in_range_rev.
  apply rev_involutive.
Qed.

Lemma broadcast_index_in_range (a b s i : list nat) :
  broadcast_shapes a b = Some s -> in_range s i = true ->
  in_range a (broadcast_index a i) = true
  /\ in_range b (broadcast_index b i) = true.
Proof.
  unfold broadcast_shapes, broadcast_index. intros Hs Hi.
  destruct (broadcast_rev (rev a) (rev b)) as [r|] eqn:Hr; try discriminate.
  injection Hs as <-.
  assert (Hi' : in_range r (rev i) = true).
  { apply in_range_rev in Hi. now rewrite rev_involutive in Hi. }
  split; apply in_range_rev_inv; rewrite rev_involutive.
  - eapply broadcast_index_rev_in_range_l; eauto.
  - eapply broadcast_index_rev_in_range_r; eauto.
Qed.

End NDFacts.

(** ** Runs of the three functions *)

Module Runs.
Import NDArray Jnp Losses NDFacts.

(** The element of operand [a] that position [i] of a broadcast result
    reads. *)
Notation "a @ i" := (fget a (broadcast_index (shape a) i)) (at level 9).

Lemma get_in_data {A} (d : A) (a : tensor A) (i : list nat) :
  well_formed a -> in_range (shape a) i = true -> In (get d a i) (data a).
Proof.
  intros Hw Hi. unfold get. apply nth_In. rewrite Hw. now apply ravel_lt.
Qed.

(** A property of every stored element holds of every element read by a
    broadcast. *)
Lemma forallb_data_at (P : spec_float -> bool) (a : farray) (b s i : list nat) :
  well_formed a -> forallb P (data a) = true ->
  (broadcast_shapes (shape a) b = Some s \/ broadcast_shapes b (shape a) = Some s) ->
  in_range s i = true ->
  P (a @ i) = true.
Proof.
  intros Hw Hall Hs Hi.
  rewrite forallb_forall in Hall. apply Hall, get_in_data; auto.
  destruct Hs as [Hs | Hs];
    now destruct (broadcast_index_in_range _ _ _ Hs Hi).
Qed.

(** The monad laws the proofs use. *)
Lemma bind_ret_l {A B} (a : A) (k : A -> M B) : bind (ret a) k = k a.
Proof. unfold bind, ret. now destruct (k a). Qed.

Lemma bind_ext {A B} (m : M A) (k k' : A -> M B) :
  (forall a, k a = k' a) -> bind m k = bind m k'.
Proof. intros H. destruct m as [l [a|e]]; simpl; now rewrite ?H. Qed.

Ltac run_calls :=
  cbn [bind ret call app shape of_fun type_assert zeros_like zeros_of
       floating].

Section Backend.

Variable fmt : IEEE.float_dtype.
Variable pow : spec_float -> spec_float -> spec_float.
Variable log : spec_float -> spec_float.

(** *** Inputs that are not floating *)

Lemma type_assert_raises (x y : ndarray) :
  is_floating x && is_floating y = false ->
  type_assert x y = ([Type_assert], Raise TypeAssertion).
Proof. destruct x, y; simpl; try discriminate; reflexivity. Qed.

Lemma l2_loss_raises (x y : ndarray) :
  is_floating x && is_floating y = false ->
  l2_loss fmt x (Some y) = ([Type_assert], Raise TypeAssertion).
Proof.
  destruct x, y; simpl; try discriminate; reflexivity.
Qed.

Lemma l2_loss_default_raises (x : ndarray) :
  is_floating x = false ->
  l2_loss fmt x None = ([Zeros_like; Type_assert], Raise TypeAssertion).
Proof. destruct x; simpl; try discriminate; reflexivity. Qed.

Lemma likelihood_raises (x y : ndarray) :
  is_floating x && is_floating y = false ->
  likelihood fmt pow x y = ([Type_assert], Raise TypeAssertion).
Proof.
  destruct x, y; simpl; try discriminate; reflexivity.
Qed.

Lemma log_loss_raises (x y : ndarray) :
  is_floating x && is_floating y = false ->
  log_loss fmt pow log x y = ([Type_assert], Raise TypeAssertion).
Proof.
  destruct x, y; simpl; try discriminate; reflexivity.
Qed.

(** *** Floating inputs *)

Lemma l2_loss_run (p t : farray) (s : list nat) :
  broadcast_shapes (shape p) (shape t) = Some s ->
  l2_loss fmt (FloatArray p) (Some (FloatArray t))
  = ([Type_assert; Subtract; Integer_pow; Multiply],
     Ok (of_fun s (fun i => Elementwise.l2 fmt p@i t@i))).
Proof.
  intros Hs.
  unfold l2_loss, subtract, integer_pow, scalar_multiply, map2, map1.
  run_calls. rewrite Hs. run_calls.
  do 2 f_equal. apply of_fun_ext. intros i Hi.
  now rewrite !get_of_fun by assumption.
Qed.

Lemma l2_loss_mismatch (p t : farray) :
  broadcast_shapes (shape p) (shape t) = None ->
  l2_loss fmt (FloatArray p) (Some (FloatArray t))
  = ([Type_assert; Subtract], Raise BroadcastError).
Proof.
  intros Hs. unfold l2_loss, subtract, map2. run_calls. now rewrite Hs.
Qed.

Lemma l2_loss_default_run (p : farray) :
  l2_loss fmt (FloatArray p) None
  = ([Zeros_like; Type_assert; Subtract; Integer_pow; Multiply],
     Ok (of_fun (shape p) (fun i =>
           IEEE.mul fmt (IEEE.half fmt)
             (IEEE.mul fmt (fget p i) (fget p i))))).
Proof.
  unfold l2_loss, subtract, integer_pow, scalar_multiply, map2, map1.
  run_calls. rewrite broadcast_shapes_diag. run_calls.
  do 2 f_equal. apply of_fun_ext. intros i Hi.
  rewrite !get_of_fun by assumption.
  rewrite (broadcast_index_id _ _ Hi), get_of_fun by assumption.
  unfold IEEE.integer_pow, IEEE.sub, IEEE.zero.
  now rewrite IEEEFacts.SFsub_zero_r.
Qed.

Lemma likelihood_run (p t : farray) (s : list nat) :
  broadcast_shapes (shape p) (shape t) = Some s ->
  likelihood fmt pow (FloatArray p) (FloatArray t)
  = ([Type_assert; Power; Subtract; Subtract; Power; Multiply; Equal;
      Equal; Logical_and; Equal; Equal; Logical_and; Logical_or; Where],
     Ok (of_fun s (fun i => Elementwise.likelihood fmt pow p@i t@i))).
Proof.
  intros Hs.
  unfold likelihood, power, rsub_scalar, multiply, equal_scalar,
    logical_and, logical_or, where_, map2, map1.
  repeat (run_calls;
          rewrite ?(broadcast_shapes_comm (shape t) (shape p)), ?Hs,
            ?broadcast_shapes_diag).
  do 2 f_equal. apply of_fun_ext. intros i Hi.
  destruct (broadcast_index_in_range _ _ _ Hs Hi) as [Hp Ht].
  rewrite (broadcast_index_id _ _ Hi).
  repeat (rewrite get_of_fun by assumption; cbn [shape];
          rewrite ?(broadcast_index_id _ _ Hi)).
  reflexivity.
Qed.

Lemma likelihood_mismatch (p t : farray) :
  broadcast_shapes (shape p) (shape t) = None ->
  likelihood fmt pow (FloatArray p) (FloatArray t)
  = ([Type_assert; Power], Raise BroadcastError).
Proof.
  intros Hs. unfold likelihood, power, map2. run_calls. now rewrite Hs.
Qed.

Lemma log_loss_run (p t : farray) (s : list nat) :
  broadcast_shapes (shape p) (shape t) = Some s ->
  log_loss fmt pow log (FloatArray p) (FloatArray t)
  = ([Type_assert; Type_assert; Power; Subtract; Subtract; Power; Multiply;
      Equal; Equal; Logical_and; Equal; Equal; Logical_and; Logical_or;
      Where; Log; Negative],
     Ok (of_fun s (fun i => Elementwise.log_loss fmt pow log p@i t@i))).
Proof.
  intros Hs. unfold log_loss. rewrite (likelihood_run _ _ Hs).
  unfold jnp_log, negative, map1. run_calls.
  do 2 f_equal. apply of_fun_ext. intros i Hi.
  now rewrite !get_of_fun by assumption.
Qed.

Lemma log_loss_mismatch (p t : farray) :
  broadcast_shapes (shape p) (shape t) = None ->
  log_loss fmt pow log (FloatArray p) (FloatArray t)
  = ([Type_assert; Type_assert; Power], Raise BroadcastError).
Proof.
  intros Hs. unfold log_loss. now rewrite (likelihood_mismatch _ _ Hs).
Qed.

End Backend.

End Runs.

(** ** The claims *)

Import NDArray Jnp Losses NDFacts Runs.

(** C1.  At every position where [targets == 1 and predictions == 1] or
    [targets == 0 and predictions == 0], [likelihood] returns exactly 1,
    whatever the backend's power computes there (the theorem holds for every
    [pow], one that yields NaN included).  The result is the array library's
    [where] applied to a boolean mask, the constant 1 and the values of the
    direct formula. *)
Theorem likelihood_override_is_one
    (fmt : IEEE.float_dtype) (pow : spec_float -> spec_float -> spec_float)
    (p t : farray) (s i : list nat) :
  broadcast_shapes (shape p) (shape t) = Some s ->
  in_range s i = true ->
  (IEEE.eqb t@i (IEEE.one fmt) && IEEE.eqb p@i (IEEE.one fmt))
  || (IEEE.eqb t@i IEEE.zero && IEEE.eqb p@i IEEE.zero) = true ->
  exists (filter_indices : barray) (likelihood_vals r : farray),
    outcome (likelihood fmt pow (FloatArray p) (FloatArray t)) = Ok r
    /\ outcome (where_ filter_indices (IEEE.one fmt) likelihood_vals) = Ok r
    /\ (forall j, in_range s j = true ->
          bget filter_indices j = Elementwise.override fmt p@j t@j)
    /\ (forall j, in_range s j = true ->
          fget likelihood_vals j = Elementwise.direct_formula fmt pow p@j t@j)
    /\ shape r = s
    /\ fget r i = IEEE.one fmt.
Proof.
  intros Hs Hi Hov.
  exists (of_fun s (fun j => Elementwise.override fmt p@j t@j)).
  exists (of_fun s (fun j => Elementwise.direct_formula fmt pow p@j t@j)).
  exists (of_fun s (fun j => Elementwise.likelihood fmt pow p@j t@j)).
  split; [now rewrite (likelihood_run fmt pow _ _ Hs)|].
  split.
  { unfold where_, map2, outcome, call. cbn [snd shape of_fun].
    rewrite broadcast_shapes_diag. apply (f_equal (@Ok farray)).
    apply of_fun_ext. intros j Hj.
    rewrite (broadcast_index_id _ _ Hj).
    unfold bget, fget. now rewrite !get_of_fun by assumption. }
  split; [intros j Hj; unfold bget; now rewrite get_of_fun|].
  split; [intros j Hj; unfold fget at 1; now rewrite get_of_fun|].
  split; [reflexivity|].
  unfold fget at 1. rewrite get_of_fun by assumption.
  unfold Elementwise.likelihood, Elementwise.override. now rewrite Hov.
Qed.

Lemma likelihood_override_is_one_witness :
  exists (filter_indices : barray) (likelihood_vals r : farray),
    outcome (likelihood IEEE.Float32 IEEE.pow_nan
               (FloatArray (Samples.predictions IEEE.Float32))
               (FloatArray (Samples.targets IEEE.Float32))) = Ok r
    /\ outcome (where_ filter_indices (IEEE.one IEEE.Float32) likelihood_vals) = Ok r
    /\ (forall j, in_range [3] j = true ->
          bget filter_indices j
          = Elementwise.override IEEE.Float32
              (Samples.predictions IEEE.Float32)@j (Samples.targets IEEE.Float32)@j)
    /\ (forall j, in_range [3] j = true ->
          fget likelihood_vals j
          = Elementwise.direct_formula IEEE.Float32 IEEE.pow_nan
              (Samples.predictions IEEE.Float32)@j (Samples.targets IEEE.Float32)@j)
    /\ shape r = [3]
    /\ fget r [1] = IEEE.one IEEE.Float32.
Proof.
  apply (@likelihood_override_is_one IEEE.Float32 IEEE.pow_nan
           (Samples.predictions IEEE.Float32) (Samples.targets IEEE.Float32)
           [3] [1]); reflexivity.
Defined.

(** C2.  [log_loss] composes [likelihood], the logarithm and the negation:
    it has the result of that composition on every input, and at every
    position its value is [-log] of the value of [likelihood].  At an
    override position that is [-log(1)], which is [== 0] on a backend whose
    logarithm vanishes at 1 (the value is the zero [-0.0]). *)
Theorem log_loss_is_neg_log_likelihood
    (fmt : IEEE.float_dtype) (pow : spec_float -> spec_float -> spec_float)
    (log : spec_float -> spec_float) (p t : farray) (s i : list nat) :
  broadcast_shapes (shape p) (shape t) = Some s ->
  in_range s i = true ->
  IEEE.eqb (log (IEEE.one fmt)) IEEE.zero = true ->
  (forall x y : ndarray,
     outcome (log_loss fmt pow log x y)
     = outcome (l <- likelihood fmt pow x y ;;
                lg <- jnp_log log l ;;
                negative lg))
  /\ exists l r : farray,
       outcome (likelihood fmt pow (FloatArray p) (FloatArray t)) = Ok l
       /\ outcome (log_loss fmt pow log (FloatArray p) (FloatArray t)) = Ok r
       /\ shape r = shape l
       /\ fget r i = IEEE.neg (log (fget l i))
       /\ (Elementwise.override fmt p@i t@i = true ->
           fget r i = IEEE.neg (log (IEEE.one fmt))
           /\ IEEE.eqb (fget r i) IEEE.zero = true).
Proof.
  intros Hs Hi Hlog. split.
  - intros x y. unfold log_loss.
    destruct x, y; try reflexivity.
    unfold type_assert, call, bind at 1. cbn [floating].
    now destruct (bind _ _).
  - exists (of_fun s (fun j => Elementwise.likelihood fmt pow p@j t@j)).
    exists (of_fun s (fun j => Elementwise.log_loss fmt pow log p@j t@j)).
    rewrite (likelihood_run fmt pow _ _ Hs), (log_loss_run fmt pow log _ _ Hs).
    assert (Hr : fget (of_fun s (fun j => Elementwise.log_loss fmt pow log p@j t@j)) i
                 = Elementwise.log_loss fmt pow log p@i t@i)
      by (unfold fget at 1; now rewrite get_of_fun).
    assert (Hl : fget (of_fun s (fun j => Elementwise.likelihood fmt pow p@j t@j)) i
                 = Elementwise.likelihood fmt pow p@i t@i)
      by (unfold fget at 1; now rewrite get_of_fun).
    rewrite Hr, Hl.
    split; [reflexivity|]. split; [reflexivity|]. split; [reflexivity|].
    split; [reflexivity|].
    intros Hov. unfold Elementwise.log_loss, Elementwise.likelihood.
    rewrite Hov. split; [reflexivity|].
    destruct (IEEEFacts.eqb_zero_inv _ Hlog) as [sg ->]. reflexivity.
Qed.

Lemma log_loss_is_neg_log_likelihood_witness :
  let fmt := IEEE.Float32 in
  let log := IEEE.log_exact_cases fmt (fun _ => S754_nan) in
  let p := Samples.predictions fmt in
  let t := Samples.targets fmt in
  (forall x y : ndarray,
     outcome (log_loss fmt IEEE.pow_nan log x y)
     = outcome (l <- likelihood fmt IEEE.pow_nan x y ;;
                lg <- jnp_log log l ;;
                negative lg))
  /\ exists l r : farray,
       outcome (likelihood fmt IEEE.pow_nan (FloatArray p) (FloatArray t)) = Ok l
       /\ outcome (log_loss fmt IEEE.pow_nan log (FloatArray p) (FloatArray t)) = Ok r
       /\ shape r = shape l
       /\ fget r [0] = IEEE.neg (log (fget l [0]))
       /\ (Elementwise.override fmt p@[0] t@[0] = true ->
           fget r [0] = IEEE.neg (log (IEEE.one fmt))
           /\ IEEE.eqb (fget r [0]) IEEE.zero = true).
Proof.
  apply (@log_loss_is_neg_log_likelihood IEEE.Float32 IEEE.pow_nan
           (IEEE.log_exact_cases IEEE.Float32 (fun _ => S754_nan))
           (Samples.predictions IEEE.Float32) (Samples.targets IEEE.Float32)
           [3] [0]); reflexivity.
Defined.

(** C5.  When every element of [targets] lies strictly between 0 and 1,
    [likelihood] is the direct formula [p**t * (1 - p)**(1 - t)] at every
    position: the override applies nowhere. *)
Theorem likelihood_is_direct_formula_inside
    (fmt : IEEE.float_dtype) (pow : spec_float -> spec_float -> spec_float)
    (p t : farray) (s : list nat) :
  broadcast_shapes (shape p) (shape t) = Some s ->
  well_formed t ->
  forallb (IEEE.strictly_inside fmt) (data t) = true ->
  outcome (likelihood fmt pow (FloatArray p) (FloatArray t))
  = Ok (of_fun s (fun i => Elementwise.direct_formula fmt pow p@i t@i))
  /\ forall i, in_range s i = true -> Elementwise.override fmt p@i t@i = false.
Proof.
  intros Hs Hw Hall.
  assert (Hno : forall i, in_range s i = true ->
                          Elementwise.override fmt p@i t@i = false).
  { intros i Hi.
    assert (Ht : IEEE.strictly_inside fmt t@i = true)
      by (eapply forallb_data_at; eauto).
    apply andb_prop in Ht as [H0 H1]. unfold Elementwise.override.
    now rewrite (IEEEFacts.ltb_eqb_false _ _ H1),
      (IEEEFacts.gtb_zero_eqb_false _ H0). }
  split; [|exact Hno].
  rewrite (likelihood_run fmt pow _ _ Hs). cbn [outcome snd].
  apply (f_equal (@Ok farray)), of_fun_ext. intros i Hi.
  unfold Elementwise.likelihood. now rewrite (Hno i Hi).
Qed.

Lemma likelihood_is_direct_formula_inside_witness :
  let fmt := IEEE.Float32 in
  let p := Samples.predictions fmt in
  let t := Samples.column fmt in
  outcome (likelihood fmt IEEE.pow_nan (FloatArray p) (FloatArray t))
  = Ok (of_fun [2; 3] (fun i => Elementwise.direct_formula fmt IEEE.pow_nan p@i t@i))
  /\ forall i, in_range [2; 3] i = true -> Elementwise.override fmt p@i t@i = false.
Proof.
  apply (@likelihood_is_direct_formula_inside IEEE.Float32 IEEE.pow_nan
           (Samples.predictions IEEE.Float32) (Samples.column IEEE.Float32)
           [2; 3]); reflexivity.
Defined.

(** C8.  On [predictions = [1.0, 0.0, 0.5]] and [targets = [1.0, 0.0, 1.0]],
    [likelihood] returns [[1.0, 1.0, 0.5]] on a backend with
    [0.5**1.0 = 0.5] and [0.5**0.0 = 1.0].  The third position is not an
    override position and holds the value of the direct formula. *)
Theorem likelihood_scenario
    (fmt : IEEE.float_dtype) (pow : spec_float -> spec_float -> spec_float) :
  pow (IEEE.half fmt) (IEEE.one fmt) = IEEE.half fmt ->
  pow (IEEE.half fmt) IEEE.zero = IEEE.one fmt ->
  outcome (likelihood fmt pow (FloatArray (Samples.predictions fmt))
             (FloatArray (Samples.targets fmt)))
  = Ok (Tensor [3] [IEEE.one fmt; IEEE.one fmt; IEEE.half fmt])
  /\ Elementwise.override fmt (IEEE.half fmt) (IEEE.one fmt) = false
  /\ Elementwise.direct_formula fmt pow (IEEE.half fmt) (IEEE.one fmt)
     = IEEE.half fmt.
Proof.
  intros H1 H0.
  assert (Hov : Elementwise.override fmt (IEEE.half fmt) (IEEE.one fmt) = false).
  { unfold Elementwise.override.
    now rewrite IEEEFacts.half_neq_one, IEEEFacts.one_neq_zero, andb_false_r. }
  assert (Hdf : Elementwise.direct_formula fmt pow (IEEE.half fmt) (IEEE.one fmt)
                = IEEE.half fmt).
  { unfold Elementwise.direct_formula.
    now rewrite IEEEFacts.sub_one_half, IEEEFacts.sub_one_one, H1, H0,
      IEEEFacts.mul_half_one. }
  split; [|now split].
  rewrite (@likelihood_run fmt pow _ _ [3]) by reflexivity.
  cbn [outcome snd]. apply (f_equal (@Ok farray)).
  unfold of_fun. f_equal.
  change (indices [3]) with [[0]; [1]; [2]]. cbn [map].
  change ((Samples.predictions fmt)@[0]) with (IEEE.one fmt).
  change ((Samples.predictions fmt)@[1]) with IEEE.zero.
  change ((Samples.predictions fmt)@[2]) with (IEEE.half fmt).
  change ((Samples.targets fmt)@[0]) with (IEEE.one fmt).
  change ((Samples.targets fmt)@[1]) with IEEE.zero.
  change ((Samples.targets fmt)@[2]) with (IEEE.one fmt).
  unfold Elementwise.likelihood at 3. rewrite Hov, Hdf.
  unfold Elementwise.likelihood, Elementwise.override, IEEE.zero.
  rewrite IEEEFacts.eqb_one_refl, (IEEEFacts.zero_neq_one fmt false).
  reflexivity.
Qed.

Lemma likelihood_scenario_witness :
  let fmt := IEEE.Float32 in
  let pow := IEEE.pow_exact_cases fmt IEEE.pow_nan in
  outcome (likelihood fmt pow (FloatArray (Samples.predictions fmt))
             (FloatArray (Samples.targets fmt)))
  = Ok (Tensor [3] [IEEE.one fmt; IEEE.one fmt; IEEE.half fmt])
  /\ Elementwise.override fmt (IEEE.half fmt) (IEEE.one fmt) = false
  /\ Elementwise.direct_formula fmt pow (IEEE.half fmt) (IEEE.one fmt)
     = IEEE.half fmt.
Proof.
  apply (@likelihood_scenario IEEE.Float32
           (IEEE.pow_exact_cases IEEE.Float32 IEEE.pow_nan)); reflexivity.
Defined.

(** The sample values are numbers of their dtype. *)
Example samples_valid :
  forallb (valid_binary 24 128)
    (Samples.tiny :: data (Samples.predictions IEEE.Float32)
       ++ data (Samples.targets IEEE.Float32)
       ++ data (Samples.column IEEE.Float32)) = true.
Proof. reflexivity. Qed.

(** *** [l2_loss] *)

(** Half a square is NaN or at least [+0]. *)
Lemma l2_nonnegative_or_nan (fmt : IEEE.float_dtype) (x y : spec_float) :
  IEEE.leb IEEE.zero (Elementwise.l2 fmt x y) = true
  \/ Elementwise.l2 fmt x y = S754_nan.
Proof.
  unfold Elementwise.l2, IEEE.integer_pow, IEEE.mul.
  set (d := IEEE.sub fmt x y).
  destruct (IEEEFacts.half_finite fmt) as (m & e & ->).
  generalize (IEEEFacts.SFmul_diag_sign (IEEE.prec fmt) (IEEE.emax fmt) d).
  destruct (IEEE.sign_of (SFmul _ _ d d)) as [sg|] eqn:Hq.
  - intros ->.
    generalize (IEEEFacts.SFmul_pos_sign (IEEE.prec fmt) (IEEE.emax fmt) m e _ Hq).
    destruct (IEEE.sign_of (SFmul _ _ (S754_finite false m e) _)) as [sg|] eqn:Hr.
    + intros ->. left. now apply IEEEFacts.leb_zero_of_sign.
    + intros _. right. now destruct (SFmul _ _ (S754_finite false m e) _).
  - intros _. right. now destruct (SFmul _ _ d d).
Qed.

(** It is NaN exactly where the difference is: at a NaN operand or at two
    infinities of one sign. *)
Lemma l2_nan_iff (fmt : IEEE.float_dtype) (x y : spec_float) :
  Elementwise.l2 fmt x y = S754_nan
  <-> x = S754_nan \/ y = S754_nan
      \/ exists sg, x = S754_infinity sg /\ y = S754_infinity sg.
Proof.
  unfold Elementwise.l2, IEEE.integer_pow, IEEE.mul, IEEE.sub.
  destruct (IEEEFacts.half_finite fmt) as (m & e & ->).
  now rewrite IEEEFacts.SFmul_finite_nan_iff, IEEEFacts.SFmul_diag_nan_iff,
    IEEEFacts.SFsub_nan_iff.
Qed.

Lemma l2_comm (fmt : IEEE.float_dtype) (x y : spec_float) :
  Elementwise.l2 fmt x y = Elementwise.l2 fmt y x.
Proof.
  unfold Elementwise.l2, IEEE.integer_pow, IEEE.mul, IEEE.sub.
  now rewrite IEEEFacts.SFmul_SFsub_swap.
Qed.

Lemma l2_diag (fmt : IEEE.float_dtype) (x : spec_float) :
  IEEE.is_finite x = true -> Elementwise.l2 fmt x x = IEEE.zero.
Proof.
  intros Hx. unfold Elementwise.l2, IEEE.integer_pow, IEEE.sub.
  rewrite (IEEEFacts.SFsub_diag _ _ _ Hx).
  change (IEEE.mul fmt (S754_zero false) (S754_zero false)) with IEEE.zero.
  apply IEEEFacts.mul_half_zero.
Qed.

(** The claim C3 as it stands fails where the difference is NaN:
    [l2_loss([nan])] is [[nan]] and [l2_loss([inf], [inf])] is [[nan]], and
    NaN is not [>= 0]. *)
Lemma l2_loss_nan_is_not_nonnegative :
  (exists r : farray,
     outcome (l2_loss IEEE.Float32 (FloatArray (Tensor [1] [S754_nan])) None)
     = Ok r
     /\ in_range (shape r) [0] = true
     /\ IEEE.leb IEEE.zero (fget r [0]) = false)
  /\ (exists r : farray,
        outcome (l2_loss IEEE.Float32
                   (FloatArray (Tensor [1] [IEEE.pos_infinity]))
                   (Some (FloatArray (Tensor [1] [IEEE.pos_infinity]))))
        = Ok r
        /\ in_range (shape r) [0] = true
        /\ IEEE.leb IEEE.zero (fget r [0]) = false).
Proof. split; eexists; repeat split. Qed.

(** C3, amended.  [l2_loss] with [targets] omitted is [l2_loss] on
    [zeros_like(predictions)], and is [0.5 * p**2] elementwise; with both
    arguments it is [0.5 * (p - t)**2] elementwise.  Every element of the
    result is non-negative or NaN, and it is NaN exactly where [p - t] is:
    at a NaN operand, or at two infinities of one sign. *)
Theorem l2_loss_values
    (fmt : IEEE.float_dtype) (p t : farray) (s i : list nat) :
  broadcast_shapes (shape p) (shape t) = Some s ->
  in_range s i = true ->
  (forall x : ndarray,
     l2_loss fmt x None = (z <- zeros_like x ;; l2_loss fmt x (Some z)))
  /\ outcome (l2_loss fmt (FloatArray p) None)
     = Ok (of_fun (shape p) (fun j =>
             IEEE.mul fmt (IEEE.half fmt) (IEEE.integer_pow fmt (fget p j) 2)))
  /\ (forall j,
        let v := IEEE.mul fmt (IEEE.half fmt) (IEEE.integer_pow fmt (fget p j) 2) in
        (IEEE.leb IEEE.zero v = true \/ v = S754_nan)
        /\ (v = S754_nan <-> fget p j = S754_nan))
  /\ exists r : farray,
       outcome (l2_loss fmt (FloatArray p) (Some (FloatArray t))) = Ok r
       /\ shape r = s
       /\ fget r i
          = IEEE.mul fmt (IEEE.half fmt)
              (IEEE.integer_pow fmt (IEEE.sub fmt p@i t@i) 2)
       /\ (IEEE.leb IEEE.zero (fget r i) = true \/ fget r i = S754_nan)
       /\ (fget r i = S754_nan
           <-> p@i = S754_nan \/ t@i = S754_nan
               \/ exists sg, p@i = S754_infinity sg /\ t@i = S754_infinity sg).
Proof.
  intros Hs Hi. split; [|split; [|split]].
  - intros x. unfold l2_loss at 1. apply bind_ext. intros z.
    unfold l2_loss. now rewrite bind_ret_l.
  - now rewrite l2_loss_default_run.
  - intros j v. subst v.
    generalize (l2_nonnegative_or_nan fmt (fget p j) IEEE.zero).
    generalize (l2_nan_iff fmt (fget p j) IEEE.zero).
    unfold Elementwise.l2, IEEE.sub, IEEE.zero.
    rewrite IEEEFacts.SFsub_zero_r. intros Hnan Hpos. split; [exact Hpos|].
    rewrite Hnan. split; [|now left].
    intros [H | [H | (sg & _ & H)]]; auto; discriminate.
  - exists (of_fun s (fun j => Elementwise.l2 fmt p@j t@j)).
    rewrite (l2_loss_run fmt _ _ Hs).
    assert (Hr : fget (of_fun s (fun j => Elementwise.l2 fmt p@j t@j)) i
                 = Elementwise.l2 fmt p@i t@i)
      by (unfold fget at 1; now rewrite get_of_fun).
    rewrite Hr. repeat split.
    + apply l2_nonnegative_or_nan.
    + apply l2_nan_iff.
    + apply l2_nan_iff.
Qed.

Lemma l2_loss_values_witness :
  let fmt := IEEE.Float32 in
  let p := Samples.predictions fmt in
  let t := Samples.column fmt in
  (forall x : ndarray,
     l2_loss fmt x None = (z <- zeros_like x ;; l2_loss fmt x (Some z)))
  /\ outcome (l2_loss fmt (FloatArray p) None)
     = Ok (of_fun (shape p) (fun j =>
             IEEE.mul fmt (IEEE.half fmt) (IEEE.integer_pow fmt (fget p j) 2)))
  /\ (forall j,
        let v := IEEE.mul fmt (IEEE.half fmt) (IEEE.integer_pow fmt (fget p j) 2) in
        (IEEE.leb IEEE.zero v = true \/ v = S754_nan)
        /\ (v = S754_nan <-> fget p j = S754_nan))
  /\ exists r : farray,
       outcome (l2_loss fmt (FloatArray p) (Some (FloatArray t))) = Ok r
       /\ shape r = [2; 3]
       /\ fget r [1; 2]
          = IEEE.mul fmt (IEEE.half fmt)
              (IEEE.integer_pow fmt (IEEE.sub fmt p@[1; 2] t@[1; 2]) 2)
       /\ (IEEE.leb IEEE.zero (fget r [1; 2]) = true \/ fget r [1; 2] = S754_nan)
       /\ (fget r [1; 2] = S754_nan
           <-> p@[1; 2] = S754_nan \/ t@[1; 2] = S754_nan
               \/ exists sg, p@[1; 2] = S754_infinity sg
                             /\ t@[1; 2] = S754_infinity sg).
Proof.
  apply (@l2_loss_values IEEE.Float32 (Samples.predictions IEEE.Float32)
           (Samples.column IEEE.Float32) [2; 3] [1; 2]); reflexivity.
Defined.

(** C6.  For broadcast-compatible [p] and [t], [l2_loss(p, t)] and
    [l2_loss(t, p)] return the same array. *)
Theorem l2_loss_symmetric (fmt : IEEE.float_dtype) (p t : farray) (s : list nat) :
  broadcast_shapes (shape p) (shape t) = Some s ->
  exists r : farray,
    outcome (l2_loss fmt (FloatArray p) (Some (FloatArray t))) = Ok r
    /\ outcome (l2_loss fmt (FloatArray t) (Some (FloatArray p))) = Ok r
    /\ shape r = s.
Proof.
  intros Hs.
  assert (Hs' : broadcast_shapes (shape t) (shape p) = Some s)
    by now rewrite broadcast_shapes_comm.
  exists (of_fun s (fun j => Elementwise.l2 fmt p@j t@j)).
  rewrite (l2_loss_run fmt _ _ Hs), (l2_loss_run fmt _ _ Hs').
  repeat split. cbn [outcome snd].
  apply (f_equal (@Ok farray)), of_fun_ext. intros j _. apply l2_comm.
Qed.

Lemma l2_loss_symmetric_witness :
  let fmt := IEEE.Float32 in
  exists r : farray,
    outcome (l2_loss fmt (FloatArray (Samples.predictions fmt))
               (Some (FloatArray (Samples.column fmt)))) = Ok r
    /\ outcome (l2_loss fmt (FloatArray (Samples.column fmt))
                  (Some (FloatArray (Samples.predictions fmt)))) = Ok r
    /\ shape r = [2; 3].
Proof.
  apply (@l2_loss_symmetric IEEE.Float32 (Samples.predictions IEEE.Float32)
           (Samples.column IEEE.Float32) [2; 3]); reflexivity.
Defined.

(** C10.  For an array [p] of finite elements, [l2_loss(p, p)] is the array
    of zeros of the shape of [p], which is [zeros_like(p)]. *)
Theorem l2_loss_self_is_zero (fmt : IEEE.float_dtype) (p : farray) :
  well_formed p ->
  forallb IEEE.is_finite (data p) = true ->
  outcome (l2_loss fmt (FloatArray p) (Some (FloatArray p)))
  = Ok (of_fun (shape p) (fun _ => IEEE.zero))
  /\ outcome (zeros_like (FloatArray p))
     = Ok (FloatArray (of_fun (shape p) (fun _ => IEEE.zero))).
Proof.
  intros Hw Hfin. split; [|reflexivity].
  rewrite (l2_loss_run fmt _ _ (broadcast_shapes_diag (shape p))).
  cbn [outcome snd]. apply (f_equal (@Ok farray)), of_fun_ext. intros i Hi.
  apply l2_diag.
  apply (@forallb_data_at IEEE.is_finite p (shape p) (shape p) i); auto.
  left. apply broadcast_shapes_diag.
Qed.

Lemma l2_loss_self_is_zero_witness :
  let fmt := IEEE.Float32 in
  let p := Samples.predictions fmt in
  outcome (l2_loss fmt (FloatArray p) (Some (FloatArray p)))
  = Ok (of_fun (shape p) (fun _ => IEEE.zero))
  /\ outcome (zeros_like (FloatArray p))
     = Ok (FloatArray (of_fun (shape p) (fun _ => IEEE.zero))).
Proof.
  apply (@l2_loss_self_is_zero IEEE.Float32 (Samples.predictions IEEE.Float32));
    reflexivity.
Defined.

(** *** The dtype check *)

(** C4.  Each of the three functions raises [TypeAssertion] exactly when one
    of its inputs ([targets] being [zeros_like(predictions)] when omitted)
    is not floating; it has then made no numeric call, and returns no
    array. *)
Theorem type_assertion_guards_losses
    (fmt : IEEE.float_dtype) (pow : spec_float -> spec_float -> spec_float)
    (log : spec_float -> spec_float) (x y : ndarray) :
  type_checked (l2_loss fmt x (Some y)) (is_floating x && is_floating y)
  /\ type_checked (l2_loss fmt x None)
       (is_floating x && is_floating (zeros_of x))
  /\ type_checked (likelihood fmt pow x y) (is_floating x && is_floating y)
  /\ type_checked (log_loss fmt pow log x y) (is_floating x && is_floating y).
Proof.
  assert (Hbad : forall A (m : M A) l,
            m = (l, Raise TypeAssertion) -> existsb is_numeric l = false ->
            type_checked m false).
  { intros A m l -> Hl. repeat split; auto; discriminate. }
  assert (Hok : forall A (m : M A) l r,
            m = (l, r) -> r <> Raise TypeAssertion -> type_checked m true).
  { intros A m l r -> Hr. split; [split|]; cbn; intros; congruence. }
  split; [|split; [|split]].
  all: destruct x as [p| |]; try (eapply Hbad; reflexivity).
  2: eapply Hok; [apply l2_loss_default_run|discriminate].
  all: destruct y as [t| |]; try (eapply Hbad; reflexivity).
  - destruct (broadcast_shapes (shape p) (shape t)) as [s|] eqn:Hs.
    + eapply Hok; [apply (l2_loss_run fmt _ _ Hs)|discriminate].
    + eapply Hok; [apply (l2_loss_mismatch fmt _ _ Hs)|discriminate].
  - destruct (broadcast_shapes (shape p) (shape t)) as [s|] eqn:Hs.
    + eapply Hok; [apply (likelihood_run fmt pow _ _ Hs)|discriminate].
    + eapply Hok; [apply (likelihood_mismatch fmt pow _ _ Hs)|discriminate].
  - destruct (broadcast_shapes (shape p) (shape t)) as [s|] eqn:Hs.
    + eapply Hok; [apply (log_loss_run fmt pow log _ _ Hs)|discriminate].
    + eapply Hok; [apply (log_loss_mismatch fmt pow log _ _ Hs)|discriminate].
Qed.

(** *** [log_loss] outside the domain of the logarithm *)

(** C7.  [log_loss] does not guard the logarithm: where [likelihood] is 0 or
    negative it does not raise, and its value is [-log] of that value, which
    is [+inf] (at 0) or NaN (at a negative) on a backend whose logarithm is
    [-inf] at the zeros and NaN on the negatives. *)
Theorem log_loss_unguarded
    (fmt : IEEE.float_dtype) (pow : spec_float -> spec_float -> spec_float)
    (log : spec_float -> spec_float) (p t : farray) (s i : list nat) :
  broadcast_shapes (shape p) (shape t) = Some s ->
  in_range s i = true ->
  (forall sg, log (S754_zero sg) = S754_infinity true) ->
  (forall x, IEEE.ltb x IEEE.zero = true -> log x = S754_nan) ->
  exists l r : farray,
    outcome (likelihood fmt pow (FloatArray p) (FloatArray t)) = Ok l
    /\ outcome (log_loss fmt pow log (FloatArray p) (FloatArray t)) = Ok r
    /\ fget r i = IEEE.neg (log (fget l i))
    /\ (IEEE.eqb (fget l i) IEEE.zero = true -> fget r i = IEEE.pos_infinity)
    /\ (IEEE.ltb (fget l i) IEEE.zero = true -> fget r i = S754_nan)
    /\ (IEEE.leb (fget l i) IEEE.zero = true ->
        fget r i = IEEE.pos_infinity \/ fget r i = S754_nan).
Proof.
  intros Hs Hi Hzero Hneg.
  exists (of_fun s (fun j => Elementwise.likelihood fmt pow p@j t@j)).
  exists (of_fun s (fun j => Elementwise.log_loss fmt pow log p@j t@j)).
  rewrite (likelihood_run fmt pow _ _ Hs), (log_loss_run fmt pow log _ _ Hs).
  assert (Hr : fget (of_fun s (fun j => Elementwise.log_loss fmt pow log p@j t@j)) i
               = Elementwise.log_loss fmt pow log p@i t@i)
    by (unfold fget at 1; now rewrite get_of_fun).
  assert (Hl : fget (of_fun s (fun j => Elementwise.likelihood fmt pow p@j t@j)) i
               = Elementwise.likelihood fmt pow p@i t@i)
    by (unfold fget at 1; now rewrite get_of_fun).
  rewrite Hr, Hl. unfold Elementwise.log_loss.
  set (v := Elementwise.likelihood fmt pow p@i t@i).
  assert (H0 : IEEE.eqb v IEEE.zero = true ->
               IEEE.neg (log v) = IEEE.pos_infinity).
  { intros Hv. destruct (IEEEFacts.eqb_zero_inv _ Hv) as [sg ->].
    now rewrite Hzero. }
  assert (H1 : IEEE.ltb v IEEE.zero = true -> IEEE.neg (log v) = S754_nan).
  { intros Hv. now rewrite (Hneg _ Hv). }
  repeat split; auto.
  intros Hle. unfold IEEE.leb, SFleb in Hle.
  unfold IEEE.eqb, SFeqb in H0. unfold IEEE.ltb, SFltb in H1.
  destruct (SFcompare v IEEE.zero) as [[]|]; try discriminate; auto.
Qed.

Lemma log_loss_unguarded_witness :
  let fmt := IEEE.Float32 in
  let pow := IEEE.pow_exact_cases fmt IEEE.pow_nan in
  let log := IEEE.log_exact_cases fmt (fun _ => S754_nan) in
  let p := Samples.miss_predictions in
  let t := Samples.miss_targets fmt in
  exists l r : farray,
    outcome (likelihood fmt pow (FloatArray p) (FloatArray t)) = Ok l
    /\ outcome (log_loss fmt pow log (FloatArray p) (FloatArray t)) = Ok r
    /\ fget r [0] = IEEE.neg (log (fget l [0]))
    /\ (IEEE.eqb (fget l [0]) IEEE.zero = true -> fget r [0] = IEEE.pos_infinity)
    /\ (IEEE.ltb (fget l [0]) IEEE.zero = true -> fget r [0] = S754_nan)
    /\ (IEEE.leb (fget l [0]) IEEE.zero = true ->
        fget r [0] = IEEE.pos_infinity \/ fget r [0] = S754_nan).
Proof.
  apply (@log_loss_unguarded IEEE.Float32
           (IEEE.pow_exact_cases IEEE.Float32 IEEE.pow_nan)
           (IEEE.log_exact_cases IEEE.Float32 (fun _ => S754_nan))
           Samples.miss_predictions (Samples.miss_targets IEEE.Float32)
           [1] [0]); try reflexivity.
  intros [[]|[]| |[] m e]; simpl; try discriminate; reflexivity.
Defined.

(** On a certain miss the likelihood is 0 and the loss is [+inf]. *)
Example log_loss_certain_miss :
  outcome (log_loss IEEE.Float32
             (IEEE.pow_exact_cases IEEE.Float32 IEEE.pow_nan)
             (IEEE.log_exact_cases IEEE.Float32 (fun _ => S754_nan))
             (FloatArray Samples.miss_predictions)
             (FloatArray (Samples.miss_targets IEEE.Float32)))
  = Ok (Tensor [1] [IEEE.pos_infinity]).
Proof. reflexivity. Qed.

(** *** Complementing predictions and targets *)

Lemma same_eq (x y : spec_float) : IEEE.same x y = true -> x = y.
Proof.
  destruct x as [a|a| |a m e], y as [b|b| |b n k]; simpl; try discriminate; auto.
  - intros H. apply Bool.eqb_prop in H. now subst.
  - intros H. apply Bool.eqb_prop in H. now subst.
  - intros H. apply andb_prop in H as [H He]. apply andb_prop in H as [Hs Hm].
    apply Bool.eqb_prop in Hs. apply Pos.eqb_eq in Hm. apply Z.eqb_eq in He.
    now subst.
Qed.

(** For [x] with [1 - (1 - x) = x]: [1 - x == 1] iff [x == 0], and
    [1 - x == 0] iff [x == 1]. *)
Lemma complement_eqb_one (fmt : IEEE.float_dtype) (x : spec_float) :
  IEEE.complement_exact fmt x = true ->
  IEEE.eqb (IEEE.sub fmt (IEEE.one fmt) x) (IEEE.one fmt) = IEEE.eqb x IEEE.zero.
Proof.
  intros Hx. apply same_eq in Hx.
  destruct (IEEE.eqb x IEEE.zero) eqn:H0.
  - destruct (IEEEFacts.eqb_zero_inv _ H0) as [sg ->].
    rewrite IEEEFacts.sub_one_zero. apply IEEEFacts.eqb_one_refl.
  - destruct (IEEE.eqb (IEEE.sub fmt (IEEE.one fmt) x) (IEEE.one fmt)) eqn:H1; auto.
    apply IEEEFacts.eqb_one_eq in H1.
    rewrite H1, IEEEFacts.sub_one_one in Hx. now rewrite <- Hx in H0.
Qed.

Lemma complement_eqb_zero (fmt : IEEE.float_dtype) (x : spec_float) :
  IEEE.complement_exact fmt x = true ->
  IEEE.eqb (IEEE.sub fmt (IEEE.one fmt) x) IEEE.zero = IEEE.eqb x (IEEE.one fmt).
Proof.
  intros Hx. apply same_eq in Hx.
  destruct (IEEE.eqb x (IEEE.one fmt)) eqn:H1.
  - apply IEEEFacts.eqb_one_eq in H1. subst x.
    now rewrite IEEEFacts.sub_one_one.
  - destruct (IEEE.eqb (IEEE.sub fmt (IEEE.one fmt) x) IEEE.zero) eqn:H0; auto.
    destruct (IEEEFacts.eqb_zero_inv _ H0) as [sg Hz].
    rewrite Hz, IEEEFacts.sub_one_zero in Hx.
    now rewrite <- Hx, IEEEFacts.eqb_one_refl in H1.
Qed.

Lemma likelihood_elem_complement
    (fmt : IEEE.float_dtype) (pow : spec_float -> spec_float -> spec_float)
    (x y : spec_float) :
  IEEE.complement_exact fmt x = true ->
  IEEE.complement_exact fmt y = true ->
  Elementwise.likelihood fmt pow
    (IEEE.sub fmt (IEEE.one fmt) x) (IEEE.sub fmt (IEEE.one fmt) y)
  = Elementwise.likelihood fmt pow x y.
Proof.
  intros Hx Hy.
  unfold Elementwise.likelihood, Elementwise.override, Elementwise.direct_formula.
  rewrite (complement_eqb_one _ _ Hx), (complement_eqb_one _ _ Hy),
    (complement_eqb_zero _ _ Hx), (complement_eqb_zero _ _ Hy).
  rewrite (same_eq _ _ Hx), (same_eq _ _ Hy).
  rewrite orb_comm. unfold IEEE.mul. now rewrite IEEEFacts.SFmul_comm.
Qed.

(** The claim C9 as it stands fails in binary32 at [p = [2**-30]],
    [t = [1.0]]: [1 - p] rounds to [[1.0]] and [1 - t] is [[0.0]], so on
    every backend with [x**1 = x] and [x**0 = 1] at these points
    [likelihood(p, t)] is [[2**-30]] while [likelihood(1 - p, 1 - t)] is
    [[0.0]]. *)
Lemma likelihood_complement_differs :
  let fmt := IEEE.Float32 in
  let p := Tensor [1] [Samples.tiny] in
  let t := Tensor [1] [IEEE.one fmt] in
  complement fmt p = Tensor [1] [IEEE.one fmt]
  /\ complement fmt t = Tensor [1] [IEEE.zero]
  /\ outcome (likelihood fmt (IEEE.pow_exact_cases fmt IEEE.pow_nan)
                (FloatArray p) (FloatArray t))
     <> outcome (likelihood fmt (IEEE.pow_exact_cases fmt IEEE.pow_nan)
                   (FloatArray (complement fmt p))
                   (FloatArray (complement fmt t)))
  /\ forall pow : spec_float -> spec_float -> spec_float,
       pow Samples.tiny (IEEE.one fmt) = Samples.tiny ->
       pow (IEEE.one fmt) IEEE.zero = IEEE.one fmt ->
       pow IEEE.zero (IEEE.one fmt) = IEEE.zero ->
       outcome (likelihood fmt pow (FloatArray p) (FloatArray t))
       = Ok (Tensor [1] [Samples.tiny])
       /\ outcome (likelihood fmt pow (FloatArray (complement fmt p))
                     (FloatArray (complement fmt t)))
          = Ok (Tensor [1] [IEEE.zero])
       /\ IEEE.eqb Samples.tiny IEEE.zero = false.
Proof.
  cbv zeta. split; [reflexivity|]. split; [reflexivity|].
  split; [vm_compute; discriminate|].
  intros pow H1 H2 H3.
  vm_compute in H1, H2, H3.
  repeat split; vm_compute; rewrite ?H1, ?H2, ?H3; reflexivity.
Qed.

(** C9, amended.  When complementing is exact bit for bit on the elements
    of [p] and of [t] ([1 - (1 - x)] is the same floating-point datum as
    [x]: that is, [x] is NaN, or [1 - (1 - x) == x] and [x] is not [-0.0]),
    [likelihood(p, t)] and [likelihood(1 - p, 1 - t)] return the same
    array. *)
Theorem likelihood_complement
    (fmt : IEEE.float_dtype) (pow : spec_float -> spec_float -> spec_float)
    (p t : farray) (s : list nat) :
  broadcast_shapes (shape p) (shape t) = Some s ->
  well_formed p -> well_formed t ->
  forallb (IEEE.complement_exact fmt) (data p) = true ->
  forallb (IEEE.complement_exact fmt) (data t) = true ->
  exists r : farray,
    outcome (likelihood fmt pow (FloatArray p) (FloatArray t)) = Ok r
    /\ outcome (likelihood fmt pow (FloatArray (complement fmt p))
                  (FloatArray (complement fmt t))) = Ok r.
Proof.
  intros Hs Hwp Hwt Hp Ht.
  exists (of_fun s (fun j => Elementwise.likelihood fmt pow p@j t@j)).
  rewrite (likelihood_run fmt pow _ _ Hs).
  rewrite (@likelihood_run fmt pow (complement fmt p) (complement fmt t) s)
    by exact Hs.
  split; [reflexivity|]. cbn [outcome snd].
  apply (f_equal (@Ok farray)), of_fun_ext. intros i Hi.
  destruct (broadcast_index_in_range _ _ _ Hs Hi) as [Hip Hit].
  unfold complement, map1, fget. cbn [shape of_fun].
  rewrite !get_of_fun by assumption.
  apply likelihood_elem_complement.
  - apply (@forallb_data_at _ p (shape t) s i); auto.
  - apply (@forallb_data_at _ t (shape p) s i); auto.
Qed.

Lemma likelihood_complement_witness :
  let fmt := IEEE.Float32 in
  let pow := IEEE.pow_exact_cases fmt IEEE.pow_nan in
  let p := Samples.predictions fmt in
  let t := Samples.targets fmt in
  exists r : farray,
    outcome (likelihood fmt pow (FloatArray p) (FloatArray t)) = Ok r
    /\ outcome (likelihood fmt pow (FloatArray (complement fmt p))
                  (FloatArray (complement fmt t))) = Ok r.
Proof.
  apply (@likelihood_complement IEEE.Float32
           (IEEE.pow_exact_cases IEEE.Float32 IEEE.pow_nan)
           (Samples.predictions IEEE.Float32) (Samples.targets IEEE.Float32)
           [3]); reflexivity.
Defined.

(** What the premise of [likelihood_complement] says of one element:
    bit-for-bit exactness is [==] exactness away from [-0.0], together
    with NaN. *)
Lemma same_refl (x : spec_float) : IEEE.same x x = true.
Proof.
  destruct x as [[]|[]| |[] m e]; simpl; auto;
    now rewrite Pos.eqb_refl, Z.eqb_refl.
Qed.

Lemma complement_exact_iff (fmt : IEEE.float_dtype) (x : spec_float) :
  IEEE.complement_exact fmt x = true
  <-> x = S754_nan
      \/ (IEEE.eqb (IEEE.sub fmt (IEEE.one fmt) (IEEE.sub fmt (IEEE.one fmt) x)) x
          = true
          /\ x <> S754_zero true).
Proof.
  unfold IEEE.complement_exact. split.
  - intros H. apply same_eq in H.
    destruct x as [sx|sx| |sx mx ex]; auto; right; rewrite H; split;
      try discriminate; try (now destruct sx);
      try apply IEEEFacts.eqb_finite_refl.
    intros [= ->].
    now rewrite IEEEFacts.sub_one_zero, IEEEFacts.sub_one_one in H.
  - intros [-> | [H Hx]].
    + unfold IEEE.sub. destruct (IEEEFacts.one_finite fmt) as (m & e & ->).
      reflexivity.
    + destruct x as [sx|sx| |sx mx ex].
      * destruct sx; [now elim Hx|].
        now rewrite IEEEFacts.sub_one_zero, IEEEFacts.sub_one_one.
      * unfold IEEE.sub. destruct (IEEEFacts.one_finite fmt) as (m & e & ->).
        now destruct sx.
      * unfold IEEE.sub. destruct (IEEEFacts.one_finite fmt) as (m & e & ->).
        reflexivity.
      * apply IEEEFacts.eqb_finite_eq in H. rewrite H. apply same_refl.
Qed.

(** The exclusion of [-0.0] is needed: there [1 - (1 - x) == x] holds, but
    in binary32 at [p = [-0.0]], [t = [-1.0]], on every backend with
    [(-0.0)**(-1) = -inf], [(+0.0)**(-1) = +inf] and [1**2 = 1],
    [likelihood(p, t)] is [[-inf]] while [likelihood(1 - p, 1 - t)] is
    [[+inf]]. *)
Lemma likelihood_complement_fails_at_negative_zero :
  let fmt := IEEE.Float32 in
  let minus_one := IEEE.neg (IEEE.one fmt) in
  let two := IEEE.sub fmt (IEEE.one fmt) minus_one in
  let p := Tensor [1] [S754_zero true] in
  let t := Tensor [1] [minus_one] in
  IEEE.eqb (IEEE.sub fmt (IEEE.one fmt) (IEEE.sub fmt (IEEE.one fmt) (S754_zero true)))
    (S754_zero true) = true
  /\ IEEE.complement_exact fmt (S754_zero true) = false
  /\ IEEE.complement_exact fmt minus_one = true
  /\ complement fmt p = Tensor [1] [IEEE.one fmt]
  /\ complement fmt t = Tensor [1] [two]
  /\ forall pow : spec_float -> spec_float -> spec_float,
       pow (S754_zero true) minus_one = S754_infinity true ->
       pow IEEE.zero minus_one = S754_infinity false ->
       pow (IEEE.one fmt) two = IEEE.one fmt ->
       outcome (likelihood fmt pow (FloatArray p) (FloatArray t))
       = Ok (Tensor [1] [S754_infinity true])
       /\ outcome (likelihood fmt pow (FloatArray (complement fmt p))
                     (FloatArray (complement fmt t)))
          = Ok (Tensor [1] [S754_infinity false]).
Proof.
  cbv zeta. repeat (split; [reflexivity|]).
  intros pow H1 H2 H3. vm_compute in H1, H2, H3.
  split; vm_compute; rewrite ?H1, ?H2, ?H3; reflexivity.
Qed.

(** * Further properties of the three functions *)

Import Views.

(** ** Shapes, errors and empty arrays *)

Lemma size_zero (s : list nat) : In 0 s -> size s = 0.
Proof.
  induction s as [|n s IH]; simpl; [tauto|].
  intros [-> | H]; [reflexivity|].
  change (fold_right Nat.mul 1 s) with (size s). rewrite (IH H). lia.
Qed.

Lemma of_fun_empty {A} (s : list nat) (f : list nat -> A) :
  In 0 s -> data (of_fun s f) = [].
Proof.
  intros H. apply length_zero_iff_nil.
  rewrite (well_formed_of_fun s f). simpl. now apply size_zero.
Qed.

(** X1.  The result of each function has the broadcast shape of its inputs, and
    as many elements as that shape has positions; with [targets] omitted,
    [l2_loss] has the shape of [predictions]. *)
Theorem losses_have_broadcast_shape
    (fmt : IEEE.float_dtype) (pow : spec_float -> spec_float -> spec_float)
    (log : spec_float -> spec_float) (p t : farray) (s : list nat) :
  broadcast_shapes (shape p) (shape t) = Some s ->
  (exists r, outcome (l2_loss fmt (FloatArray p) (Some (FloatArray t))) = Ok r
             /\ shape r = s /\ length (data r) = size s)
  /\ (exists r, outcome (l2_loss fmt (FloatArray p) None) = Ok r
                /\ shape r = shape p /\ length (data r) = size (shape p))
  /\ (exists r, outcome (likelihood fmt pow (FloatArray p) (FloatArray t)) = Ok r
                /\ shape r = s /\ length (data r) = size s)
  /\ (exists r, outcome (log_loss fmt pow log (FloatArray p) (FloatArray t)) = Ok r
                /\ shape r = s /\ length (data r) = size s).
Proof.
  intros Hs.
  rewrite (l2_loss_run fmt _ _ Hs), l2_loss_default_run,
    (likelihood_run fmt pow _ _ Hs), (log_loss_run fmt pow log _ _ Hs).
  repeat split; eexists; (split; [reflexivity|]); split;
    try reflexivity; apply well_formed_of_fun.
Qed.

Lemma losses_have_broadcast_shape_witness :
  let fmt := IEEE.Float32 in
  let pow := IEEE.pow_exact_cases fmt IEEE.pow_nan in
  let log := IEEE.log_exact_cases fmt (fun _ => S754_nan) in
  let p := Samples.predictions fmt in
  let t := Samples.column fmt in
  (exists r, outcome (l2_loss fmt (FloatArray p) (Some (FloatArray t))) = Ok r
             /\ shape r = [2; 3] /\ length (data r) = size [2; 3])
  /\ (exists r, outcome (l2_loss fmt (FloatArray p) None) = Ok r
                /\ shape r = shape p /\ length (data r) = size (shape p))
  /\ (exists r, outcome (likelihood fmt pow (FloatArray p) (FloatArray t)) = Ok r
                /\ shape r = [2; 3] /\ length (data r) = size [2; 3])
  /\ (exists r, outcome (log_loss fmt pow log (FloatArray p) (FloatArray t)) = Ok r
                /\ shape r = [2; 3] /\ length (data r) = size [2; 3]).
Proof.
  apply (@losses_have_broadcast_shape IEEE.Float32
           (IEEE.pow_exact_cases IEEE.Float32 IEEE.pow_nan)
           (IEEE.log_exact_cases IEEE.Float32 (fun _ => S754_nan))
           (Samples.predictions IEEE.Float32) (Samples.column IEEE.Float32)
           [2; 3]); reflexivity.
Defined.

Lemma classified_ok {A} (m : M A) (l : list libcall) (r : A) :
  m = (l, Ok r) -> classified m true true.
Proof.
  intros ->. unfold classified, returns. cbn.
  repeat split; eauto; discriminate.
Qed.

Lemma classified_mismatch {A} (m : M A) (l : list libcall) :
  m = (l, Raise BroadcastError) -> classified m true false.
Proof.
  intros ->. unfold classified, returns. cbn.
  repeat split; try discriminate; auto. intros [r H]. discriminate.
Qed.

Lemma classified_dtype {A} (m : M A) (l : list libcall) (c : bool) :
  m = (l, Raise TypeAssertion) -> classified m false c.
Proof.
  intros ->. unfold classified, returns. cbn.
  repeat split; try discriminate; auto. intros [r H]. discriminate.
Qed.

(** X2.  The only errors are the dtype error and the array library's shape
    error, and the dtype error comes first: a function returns an array
    exactly when both inputs are floating and their shapes broadcast, raises
    the shape error exactly when both are floating and their shapes do not
    broadcast, and raises the dtype error otherwise.  With [targets] omitted
    [l2_loss] never raises the shape error. *)
Theorem losses_outcomes
    (fmt : IEEE.float_dtype) (pow : spec_float -> spec_float -> spec_float)
    (log : spec_float -> spec_float) (x y : ndarray) :
  classified (l2_loss fmt x (Some y))
    (is_floating x && is_floating y) (compatible x y)
  /\ classified (likelihood fmt pow x y)
       (is_floating x && is_floating y) (compatible x y)
  /\ classified (log_loss fmt pow log x y)
       (is_floating x && is_floating y) (compatible x y)
  /\ classified (l2_loss fmt x None) (is_floating x) true.
Proof.
  split; [|split; [|split]].
  all: destruct x as [p| |];
    try (eapply classified_dtype; reflexivity).
  4: eapply classified_ok; apply l2_loss_default_run.
  all: destruct y as [t| |];
    try (eapply classified_dtype; reflexivity).
  all: unfold compatible; cbn [shape_of is_floating andb];
    destruct (broadcast_shapes (shape p) (shape t)) as [s|] eqn:Hs.
  - eapply classified_ok, (l2_loss_run fmt _ _ Hs).
  - eapply classified_mismatch, (l2_loss_mismatch fmt _ _ Hs).
  - eapply classified_ok, (likelihood_run fmt pow _ _ Hs).
  - eapply classified_mismatch, (likelihood_mismatch fmt pow _ _ Hs).
  - eapply classified_ok, (log_loss_run fmt pow log _ _ Hs).
  - eapply classified_mismatch, (log_loss_mismatch fmt pow log _ _ Hs).
Qed.

(** X3.  On inputs whose broadcast shape has a dimension of size 0 the three
    functions return the empty array of that shape, without an error. *)
Theorem losses_on_empty_input
    (fmt : IEEE.float_dtype) (pow : spec_float -> spec_float -> spec_float)
    (log : spec_float -> spec_float) (p t : farray) (s : list nat) :
  broadcast_shapes (shape p) (shape t) = Some s ->
  In 0 s ->
  outcome (l2_loss fmt (FloatArray p) (Some (FloatArray t))) = Ok (Tensor s [])
  /\ outcome (likelihood fmt pow (FloatArray p) (FloatArray t)) = Ok (Tensor s [])
  /\ outcome (log_loss fmt pow log (FloatArray p) (FloatArray t)) = Ok (Tensor s []).
Proof.
  intros Hs H0.
  assert (He : forall f : list nat -> spec_float, of_fun s f = Tensor s []).
  { intros f. generalize (of_fun_empty s f H0). unfold of_fun. simpl.
    now intros ->. }
  rewrite (l2_loss_run fmt _ _ Hs), (likelihood_run fmt pow _ _ Hs),
    (log_loss_run fmt pow log _ _ Hs).
  cbn [outcome snd]. now rewrite !He.
Qed.

Lemma losses_on_empty_input_witness :
  let fmt := IEEE.Float32 in
  let pow := IEEE.pow_nan in
  let log := IEEE.log_exact_cases fmt (fun _ => S754_nan) in
  let p := empty_rows in
  let t := Samples.predictions fmt in
  outcome (l2_loss fmt (FloatArray p) (Some (FloatArray t))) = Ok (Tensor [0; 3] [])
  /\ outcome (likelihood fmt pow (FloatArray p) (FloatArray t)) = Ok (Tensor [0; 3] [])
  /\ outcome (log_loss fmt pow log (FloatArray p) (FloatArray t)) = Ok (Tensor [0; 3] []).
Proof.
  apply (@losses_on_empty_input IEEE.Float32 IEEE.pow_nan
           (IEEE.log_exact_cases IEEE.Float32 (fun _ => S754_nan))
           empty_rows (Samples.predictions IEEE.Float32) [0; 3]);
    [reflexivity | simpl; auto].
Defined.

(** ** [l2_loss]: signs and finite inputs *)

Section SignFlip.

Variables prec emax : Z.

(** Negating both operands of a subtraction negates the result, two equal
    zeros apart (both differences are then [+0]). *)
Lemma SFsub_opp_opp (x y : spec_float) :
  SFsub prec emax (SFopp x) (SFopp y) = SFopp (SFsub prec emax x y)
  \/ (SFsub prec emax x y = S754_zero false
      /\ SFsub prec emax (SFopp x) (SFopp y) = S754_zero false).
Proof.
  destruct x as [sx|sx| |sx mx ex], y as [sy|sy| |sy my ey]; simpl;
    try (left; reflexivity);
    try (destruct sx, sy; simpl; auto; fail).
  assert (Hc : forall a b : Z,
            (cond_Zopp (negb sx) a - cond_Zopp (negb sy) b
             = - (cond_Zopp sx a - cond_Zopp sy b))%Z)
    by (intros a b; destruct sx, sy; unfold cond_Zopp, negb; lia).
  rewrite Hc, IEEEFacts.binary_normalize_opp.
  destruct (cond_Zopp sx _ - cond_Zopp sy _)%Z; auto.
Qed.

End SignFlip.

Lemma l2_opp_opp (fmt : IEEE.float_dtype) (x y : spec_float) :
  Elementwise.l2 fmt (IEEE.neg x) (IEEE.neg y) = Elementwise.l2 fmt x y.
Proof.
  unfold Elementwise.l2, IEEE.integer_pow, IEEE.mul, IEEE.sub, IEEE.neg.
  destruct (SFsub_opp_opp (IEEE.prec fmt) (IEEE.emax fmt) x y) as [H | [H1 H2]].
  - now rewrite H, IEEEFacts.SFmul_opp_opp.
  - now rewrite H1, H2.
Qed.

(** X4.  [l2_loss] does not see a common change of sign:
    [l2_loss(-p, -t)] is [l2_loss(p, t)], and [l2_loss(-p)] is
    [l2_loss(p)]. *)
Theorem l2_loss_sign_flip (fmt : IEEE.float_dtype) (p t : farray) (s : list nat) :
  broadcast_shapes (shape p) (shape t) = Some s ->
  outcome (l2_loss fmt (FloatArray (negated p)) (Some (FloatArray (negated t))))
  = outcome (l2_loss fmt (FloatArray p) (Some (FloatArray t)))
  /\ outcome (l2_loss fmt (FloatArray (negated p)) None)
     = outcome (l2_loss fmt (FloatArray p) None)
  /\ outcome (negative p) = Ok (negated p).
Proof.
  intros Hs. split; [|split; [|reflexivity]].
  - rewrite (l2_loss_run fmt _ _ Hs).
    rewrite (@l2_loss_run fmt (negated p) (negated t) s) by exact Hs.
    cbn [outcome snd]. apply (f_equal (@Ok farray)), of_fun_ext. intros i Hi.
    destruct (broadcast_index_in_range _ _ _ Hs Hi) as [Hip Hit].
    unfold negated, map1, fget. cbn [shape of_fun].
    rewrite !get_of_fun by assumption. apply l2_opp_opp.
  - rewrite !l2_loss_default_run. cbn [outcome snd].
    apply (f_equal (@Ok farray)), of_fun_ext. intros i Hi.
    unfold negated, map1, fget. cbn [shape of_fun] in *.
    rewrite !get_of_fun by assumption.
    unfold IEEE.mul, IEEE.neg. now rewrite IEEEFacts.SFmul_opp_opp.
Qed.

Lemma l2_loss_sign_flip_witness :
  let fmt := IEEE.Float32 in
  let p := wild_row fmt in
  let t := Samples.column fmt in
  outcome (l2_loss fmt (FloatArray (negated p)) (Some (FloatArray (negated t))))
  = outcome (l2_loss fmt (FloatArray p) (Some (FloatArray t)))
  /\ outcome (l2_loss fmt (FloatArray (negated p)) None)
     = outcome (l2_loss fmt (FloatArray p) None)
  /\ outcome (negative p) = Ok (negated p).
Proof.
  apply (@l2_loss_sign_flip IEEE.Float32 (wild_row IEEE.Float32)
           (Samples.column IEEE.Float32) [2; 3]); reflexivity.
Defined.

(** X5.  On arrays of finite elements [l2_loss] is non-negative everywhere: no
    element is NaN (an overflowing difference gives [+inf]). *)
Theorem l2_loss_nonnegative_on_finite
    (fmt : IEEE.float_dtype) (p t : farray) (s : list nat) :
  broadcast_shapes (shape p) (shape t) = Some s ->
  well_formed p -> well_formed t ->
  forallb IEEE.is_finite (data p) = true ->
  forallb IEEE.is_finite (data t) = true ->
  exists r : farray,
    outcome (l2_loss fmt (FloatArray p) (Some (FloatArray t))) = Ok r
    /\ forallb (fun v => IEEE.leb IEEE.zero v) (data r) = true.
Proof.
  intros Hs Hwp Hwt Hp Ht.
  exists (of_fun s (fun j => Elementwise.l2 fmt p@j t@j)).
  rewrite (l2_loss_run fmt _ _ Hs). split; [reflexivity|].
  apply forallb_forall. intros v Hv. unfold of_fun in Hv. simpl in Hv.
  apply in_map_iff in Hv as (i & <- & Hi). apply In_indices in Hi.
  assert (Hpi : IEEE.is_finite p@i = true)
    by (apply (@forallb_data_at _ p (shape t) s i); auto).
  assert (Hti : IEEE.is_finite t@i = true)
    by (apply (@forallb_data_at _ t (shape p) s i); auto).
  destruct (l2_nonnegative_or_nan fmt p@i t@i) as [H | H]; auto.
  apply l2_nan_iff in H as [H | [H | (sg & H & _)]];
    rewrite H in *; discriminate.
Qed.

Lemma l2_loss_nonnegative_on_finite_witness :
  let fmt := IEEE.Float32 in
  exists r : farray,
    outcome (l2_loss fmt (FloatArray (Samples.predictions fmt))
               (Some (FloatArray (Samples.column fmt)))) = Ok r
    /\ forallb (fun v => IEEE.leb IEEE.zero v) (data r) = true.
Proof.
  apply (@l2_loss_nonnegative_on_finite IEEE.Float32
           (Samples.predictions IEEE.Float32) (Samples.column IEEE.Float32)
           [2; 3]); reflexivity.
Defined.

(** ** [likelihood] and [log_loss]: NaN inputs and hard labels *)

Lemma override_nan (fmt : IEEE.float_dtype) (x y : spec_float) :
  IEEE.is_nan x || IEEE.is_nan y = true -> Elementwise.override fmt x y = false.
Proof.
  unfold Elementwise.override.
  destruct x as [sx|sx| |sx mx ex]; destruct y as [sy|sy| |sy my ey];
    try discriminate; intros _; cbn [IEEE.eqb SFeqb SFcompare];
    now rewrite ?andb_false_r.
Qed.

(** X6.  The override never hides a NaN input: where [predictions] or [targets]
    is NaN the mask is false, and [likelihood] is the value of the direct
    formula. *)
Theorem likelihood_nan_is_not_overridden
    (fmt : IEEE.float_dtype) (pow : spec_float -> spec_float -> spec_float)
    (p t : farray) (s i : list nat) :
  broadcast_shapes (shape p) (shape t) = Some s ->
  in_range s i = true ->
  IEEE.is_nan p@i || IEEE.is_nan t@i = true ->
  exists r : farray,
    outcome (likelihood fmt pow (FloatArray p) (FloatArray t)) = Ok r
    /\ Elementwise.override fmt p@i t@i = false
    /\ fget r i = Elementwise.direct_formula fmt pow p@i t@i.
Proof.
  intros Hs Hi Hnan.
  exists (of_fun s (fun j => Elementwise.likelihood fmt pow p@j t@j)).
  rewrite (likelihood_run fmt pow _ _ Hs). split; [reflexivity|].
  split; [now apply override_nan|].
  unfold fget at 1. rewrite get_of_fun by assumption.
  unfold Elementwise.likelihood. now rewrite override_nan.
Qed.

Lemma likelihood_nan_is_not_overridden_witness :
  let fmt := IEEE.Float32 in
  let pow := IEEE.pow_nan in
  let p := wild_row fmt in
  let t := Samples.targets fmt in
  exists r : farray,
    outcome (likelihood fmt pow (FloatArray p) (FloatArray t)) = Ok r
    /\ Elementwise.override fmt p@[2] t@[2] = false
    /\ fget r [2] = Elementwise.direct_formula fmt pow p@[2] t@[2].
Proof.
  apply (@likelihood_nan_is_not_overridden IEEE.Float32 IEEE.pow_nan
           (wild_row IEEE.Float32) (Samples.targets IEEE.Float32) [3] [2]);
    reflexivity.
Defined.

Lemma hard_inv (fmt : IEEE.float_dtype) (x : spec_float) :
  hard fmt x = true -> x = IEEE.zero \/ x = IEEE.one fmt.
Proof.
  unfold hard. intros H. apply orb_prop in H as [H | H];
    apply same_eq in H; auto.
Qed.

Lemma likelihood_elem_hard
    (fmt : IEEE.float_dtype) (pow : spec_float -> spec_float -> spec_float)
    (x y : spec_float) :
  hard fmt x = true -> hard fmt y = true ->
  pow (IEEE.one fmt) IEEE.zero = IEEE.one fmt ->
  pow IEEE.zero (IEEE.one fmt) = IEEE.zero ->
  Elementwise.likelihood fmt pow x y
  = if IEEE.same x y then IEEE.one fmt else IEEE.zero.
Proof.
  intros Hx Hy H10 H01.
  assert (Hm10 : IEEE.mul fmt (IEEE.one fmt) IEEE.zero = IEEE.zero)
    by (destruct fmt; reflexivity).
  assert (Hm01 : IEEE.mul fmt IEEE.zero (IEEE.one fmt) = IEEE.zero)
    by (destruct fmt; reflexivity).
  assert (Hs10 : IEEE.same (IEEE.one fmt) IEEE.zero = false)
    by (destruct fmt; reflexivity).
  assert (Hs01 : IEEE.same IEEE.zero (IEEE.one fmt) = false)
    by (destruct fmt; reflexivity).
  assert (Hs11 : IEEE.same (IEEE.one fmt) (IEEE.one fmt) = true)
    by (destruct fmt; reflexivity).
  unfold Elementwise.likelihood, Elementwise.override, Elementwise.direct_formula.
  destruct (hard_inv _ _ Hx) as [-> | ->], (hard_inv _ _ Hy) as [-> | ->];
    rewrite ?IEEEFacts.eqb_one_refl, ?IEEEFacts.one_neq_zero,
      ?(IEEEFacts.zero_neq_one fmt false), ?IEEEFacts.sub_one_one,
      ?(IEEEFacts.sub_one_zero fmt false), ?Hs10, ?Hs01, ?Hs11;
    unfold IEEE.zero in *;
    rewrite ?(IEEEFacts.zero_neq_one fmt false),
      ?(IEEEFacts.sub_one_zero fmt false);
    cbn [IEEE.eqb SFeqb SFcompare IEEE.same Bool.eqb andb orb];
    rewrite ?H10, ?H01, ?Hm10, ?Hm01; reflexivity.
Qed.

(** X7.  On hard predictions against hard labels (each [0.0] or [1.0]), on a
    backend with [1**0 = 1] and [0**1 = 0], [likelihood] is the indicator
    of agreement: 1 where they agree, 0 where they differ.  Where they
    differ [log_loss] is [+inf] when the logarithm is [-inf] at 0. *)
Theorem losses_on_hard_labels
    (fmt : IEEE.float_dtype) (pow : spec_float -> spec_float -> spec_float)
    (log : spec_float -> spec_float) (p t : farray) (s i : list nat) :
  broadcast_shapes (shape p) (shape t) = Some s ->
  in_range s i = true ->
  hard fmt p@i = true -> hard fmt t@i = true ->
  pow (IEEE.one fmt) IEEE.zero = IEEE.one fmt ->
  pow IEEE.zero (IEEE.one fmt) = IEEE.zero ->
  log IEEE.zero = S754_infinity true ->
  exists l r : farray,
    outcome (likelihood fmt pow (FloatArray p) (FloatArray t)) = Ok l
    /\ outcome (log_loss fmt pow log (FloatArray p) (FloatArray t)) = Ok r
    /\ fget l i = (if IEEE.same p@i t@i then IEEE.one fmt else IEEE.zero)
    /\ (IEEE.same p@i t@i = false -> fget r i = IEEE.pos_infinity).
Proof.
  intros Hs Hi Hp Ht H10 H01 Hlog.
  exists (of_fun s (fun j => Elementwise.likelihood fmt pow p@j t@j)).
  exists (of_fun s (fun j => Elementwise.log_loss fmt pow log p@j t@j)).
  rewrite (likelihood_run fmt pow _ _ Hs), (log_loss_run fmt pow log _ _ Hs).
  split; [reflexivity|]. split; [reflexivity|].
  assert (Hr : fget (of_fun s (fun j => Elementwise.log_loss fmt pow log p@j t@j)) i
               = Elementwise.log_loss fmt pow log p@i t@i)
    by (unfold fget at 1; now rewrite get_of_fun).
  assert (Hl : fget (of_fun s (fun j => Elementwise.likelihood fmt pow p@j t@j)) i
               = Elementwise.likelihood fmt pow p@i t@i)
    by (unfold fget at 1; now rewrite get_of_fun).
  rewrite Hr, Hl. unfold Elementwise.log_loss.
  rewrite (likelihood_elem_hard fmt pow _ _ Hp Ht H10 H01).
  split; [reflexivity|]. intros Hd. now rewrite Hd, Hlog.
Qed.

Lemma losses_on_hard_labels_witness :
  let fmt := IEEE.Float32 in
  let pow := IEEE.pow_exact_cases fmt IEEE.pow_nan in
  let log := IEEE.log_exact_cases fmt (fun _ => S754_nan) in
  let p := hard_predictions fmt in
  let t := hard_targets fmt in
  exists l r : farray,
    outcome (likelihood fmt pow (FloatArray p) (FloatArray t)) = Ok l
    /\ outcome (log_loss fmt pow log (FloatArray p) (FloatArray t)) = Ok r
    /\ fget l [2] = (if IEEE.same p@[2] t@[2] then IEEE.one fmt else IEEE.zero)
    /\ (IEEE.same p@[2] t@[2] = false -> fget r [2] = IEEE.pos_infinity).
Proof.
  apply (@losses_on_hard_labels IEEE.Float32
           (IEEE.pow_exact_cases IEEE.Float32 IEEE.pow_nan)
           (IEEE.log_exact_cases IEEE.Float32 (fun _ => S754_nan))
           (hard_predictions IEEE.Float32) (hard_targets IEEE.Float32)
           [4] [2]); reflexivity.
Defined.

Lemma leb_zero_neg (y : spec_float) :
  IEEE.leb y IEEE.zero = true -> IEEE.leb IEEE.zero (IEEE.neg y) = true.
Proof. destruct y as [[]|[]| |[] m e]; simpl; auto; discriminate. Qed.

(** X8.  Negating the logarithm turns its sign: where [likelihood] lies in
    [(0, 1]], [log_loss] is non-negative on every backend whose logarithm is
    at most 0 on that interval. *)
Theorem log_loss_nonnegative_on_unit_interval
    (fmt : IEEE.float_dtype) (pow : spec_float -> spec_float -> spec_float)
    (log : spec_float -> spec_float) (p t : farray) (s i : list nat) :
  broadcast_shapes (shape p) (shape t) = Some s ->
  in_range s i = true ->
  (forall x, in_unit_interval fmt x = true -> IEEE.leb (log x) IEEE.zero = true) ->
  exists l r : farray,
    outcome (likelihood fmt pow (FloatArray p) (FloatArray t)) = Ok l
    /\ outcome (log_loss fmt pow log (FloatArray p) (FloatArray t)) = Ok r
    /\ (in_unit_interval fmt (fget l i) = true ->
        IEEE.leb IEEE.zero (fget r i) = true).
Proof.
  intros Hs Hi Hlog.
  exists (of_fun s (fun j => Elementwise.likelihood fmt pow p@j t@j)).
  exists (of_fun s (fun j => Elementwise.log_loss fmt pow log p@j t@j)).
  rewrite (likelihood_run fmt pow _ _ Hs), (log_loss_run fmt pow log _ _ Hs).
  split; [reflexivity|]. split; [reflexivity|].
  assert (Hr : fget (of_fun s (fun j => Elementwise.log_loss fmt pow log p@j t@j)) i
               = Elementwise.log_loss fmt pow log p@i t@i)
    by (unfold fget at 1; now rewrite get_of_fun).
  assert (Hl : fget (of_fun s (fun j => Elementwise.likelihood fmt pow p@j t@j)) i
               = Elementwise.likelihood fmt pow p@i t@i)
    by (unfold fget at 1; now rewrite get_of_fun).
  rewrite Hr, Hl. intros Hin. apply leb_zero_neg, Hlog, Hin.
Qed.

Lemma log_loss_nonnegative_on_unit_interval_witness :
  let fmt := IEEE.Float32 in
  let pow := IEEE.pow_exact_cases fmt IEEE.pow_nan in
  let log := IEEE.log_exact_cases fmt (fun _ => S754_infinity true) in
  let p := Samples.predictions fmt in
  let t := Samples.targets fmt in
  exists l r : farray,
    outcome (likelihood fmt pow (FloatArray p) (FloatArray t)) = Ok l
    /\ outcome (log_loss fmt pow log (FloatArray p) (FloatArray t)) = Ok r
    /\ (in_unit_interval fmt (fget l [2]) = true ->
        IEEE.leb IEEE.zero (fget r [2]) = true).
Proof.
  apply (@log_loss_nonnegative_on_unit_interval IEEE.Float32
           (IEEE.pow_exact_cases IEEE.Float32 IEEE.pow_nan)
           (IEEE.log_exact_cases IEEE.Float32 (fun _ => S754_infinity true))
           (Samples.predictions IEEE.Float32) (Samples.targets IEEE.Float32)
           [3] [2]); try reflexivity.
  intros [[]|[]| |[] m e]; simpl; try discriminate; try reflexivity.
  intros _. now destruct (IEEE.eqb _ _).
Defined.
